(** * MCP4728 quad DAC driver scripts: [communicate.py] and [zeroed.py]

    A shallow embedding of the two Raspberry Pi scripts that drive the
    MCP4728 over I2C, and the properties of the register encoding, the
    update loop and the shutdown path.

    Modelling conventions.
    - Python [int] values are [Z]; the shifts and masks of the source are
      [Z.shiftl], [Z.shiftr], [Z.land] and [Z.lor].
    - Python [float] values are modelled by the real numbers [R]: the
      arithmetic of the source is read without rounding, [math.sin] is
      [sin] and [math.pi] is [PI].  Not-a-number and infinities have no
      counterpart.  A division by zero raises, as in Python.
    - The dictionaries keyed by the channel letters ['A'] .. ['D'] are
      functions on the enumeration [channel].
    - Everything the scripts do to the outside world (bus transactions,
      console messages, closing the bus) is recorded in a log of [event]s;
      everything the outside world decides (the clock, the outcome of a bus
      transaction, a Ctrl-C) is an explicit input. *)

From Stdlib Require Import ZArith Reals Zfloor Lra Lia List Bool.
From coqutil Require Import Z.bitblast.
From Stdlib Require String Ascii.
Import ListNotations.

Local Open Scope Z_scope.

(** ** Python runtime: exceptions, float division, [int()] *)

Inductive exn : Type :=
| ZeroDivisionError
| IOError
| KeyboardInterrupt
| OtherError.

Inductive result (A : Type) : Type :=
| Ok (a : A)
| Raise (e : exn).

Arguments Ok {A} a.
Arguments Raise {A} e.

Definition bind {A B : Type} (r : result A) (k : A -> result B) : result B :=
  match r with
  | Ok a => k a
  | Raise e => Raise e
  end.

Notation "x <- r ;; k" := (bind r (fun x => k))
  (at level 61, r at next level, right associativity).

(** [x / y] on floats: raises [ZeroDivisionError] when [y] is zero. *)
Definition float_div (x y : R) : result R :=
  if Req_dec_T y 0 then Raise ZeroDivisionError else Ok (x / y)%R.

(** [int(x)] on a float: truncation towards zero. *)
Definition int (x : R) : Z :=
  if Rlt_dec x 0 then Zceil x else Zfloor x.

(** ** The four DAC channels *)

Inductive channel : Type := A | B | C | D.

(** ** The outside world: bus transactions and console output *)

(** Outcome of one [bus.write_i2c_block_data] call: it returns, or it
    raises [IOError]. *)
Inductive write_result : Type :=
| Success
| Failure.

(** Console messages, one constructor per [print] of the two scripts. *)
Inductive message : Type :=
| MsgBusOpened
| MsgPressCtrlC
| MsgGainWarning
| MsgFirstWriteOk
| MsgDeviceUnreachable
| MsgWillExit
| MsgStoppedByUser
| MsgUnexpected
| MsgZeroing
| MsgZeroingFailed
| MsgBusClosed
| MsgChannelSet (ch : channel)
| MsgChannelError (ch : channel)
| MsgCheckConnections
| MsgAllSet.

Inductive event : Type :=
| Write (address command : Z) (data : list Z) (r : write_result)
| Close
| Print (m : message).

(** The bus transactions of a log, in order. *)
Definition is_write (e : event) : bool :=
  match e with
  | Write _ _ _ _ => true
  | _ => false
  end.

Definition writes (log : list event) : list event := filter is_write log.

Definition is_close (e : event) : bool :=
  match e with
  | Close => true
  | _ => false
  end.

(** ** [communicate.py] *)

Module Communicate.

(** The module-level configuration of the script. *)
Record config : Type := {
  MCP4728_ADDRESS : Z;
  CHANNEL_FREQUENCIES : channel -> R;
  VDD : R;
  VREF_MODE : Z;
  GAIN_MODE : Z
}.

(** The values written in the source file. *)
Definition source_config : config := {|
  MCP4728_ADDRESS := 0x60;
  CHANNEL_FREQUENCIES := fun _ => 0.01%R;
  VDD := 5.0%R;
  VREF_MODE := 0;
  GAIN_MODE := 0
|}.

Definition CHANNEL_MAP (ch : channel) : Z :=
  match ch with
  | A => 0 (* 0b00 *)
  | B => 1 (* 0b01 *)
  | C => 2 (* 0b10 *)
  | D => 3 (* 0b11 *)
  end.

(** [SEQ_WRITE_COMMAND = 0b01000000] *)
Definition SEQ_WRITE_COMMAND : Z := 0x40.

Definition channel_order : list channel := [A; B; C; D].

Section Tick.

Variable cfg : config.

(** Lines 78-84: the sine sample of one channel. *)
Definition voltage (ch : channel) (elapsed_time : R) : R :=
  let frequency := CHANNEL_FREQUENCIES cfg ch in
  let amplitude := (VDD cfg / 2)%R in
  let offset := (VDD cfg / 2)%R in
  (amplitude * sin (2 * PI * frequency * elapsed_time) + offset)%R.

(** Line 87. *)
Definition v_ref : R :=
  if VREF_MODE cfg =? 0 then VDD cfg
  else (2.048 * (if GAIN_MODE cfg =? 1 then 2 else 1))%R.

(** Lines 90-91: the two clamping statements, in the order of the
    source. *)
Definition clamp (voltage : R) : R :=
  let voltage := if Rgt_dec voltage v_ref then v_ref else voltage in
  let voltage := if Rlt_dec voltage 0 then 0%R else voltage in
  voltage.

(** Line 93. *)
Definition digital_value (voltage : R) : result Z :=
  ratio <- float_div (clamp voltage) v_ref ;;
  Ok (int (ratio * 4095)).

(** Lines 96-100. *)
Definition data_msb (digital_value : Z) : Z :=
  Z.lor (Z.lor (Z.lor (Z.lor
    (Z.shiftl (Z.land (VREF_MODE cfg) 0x01) 7)
    (Z.shiftl (Z.land 0 0x01) 6))
    (Z.shiftl (Z.land 0 0x01) 5))
    (Z.shiftl (Z.land (GAIN_MODE cfg) 0x01) 4))
    (Z.land (Z.shiftr digital_value 8) 0x0F).

(** Line 101. *)
Definition data_lsb (digital_value : Z) : Z :=
  Z.land digital_value 0xFF.

(** Lines 87-101: the two data bytes of one channel. *)
Definition encode (voltage : R) : result (Z * Z) :=
  d <- digital_value voltage ;;
  Ok (data_msb d, data_lsb d).

(** Lines 77-104: the [for channel in channel_order] loop, extending
    [i2c_payload] by two bytes per channel. *)
Fixpoint extend_payload (channels : list channel) (elapsed_time : R)
    (i2c_payload : list Z) : result (list Z) :=
  match channels with
  | [] => Ok i2c_payload
  | channel :: rest =>
      bytes <- encode (voltage channel elapsed_time) ;;
      extend_payload rest elapsed_time
        (i2c_payload ++ [fst bytes; snd bytes])
  end.

(** Lines 72-104. *)
Definition i2c_payload (elapsed_time : R) : result (list Z) :=
  extend_payload channel_order elapsed_time [].

End Tick.

(** *** The update loop (lines 62-120) *)

(** Where the control of [main] is: in the [while True] loop, out of
    it through [break] after the first transaction failed, or out of it
    through an exception: [KeyboardInterrupt], or any other one. *)
Inductive status : Type :=
| Running
| Faulted
| Stopped
| Aborted (e : exn).

Record state : Type := {
  control : status;
  first_run : bool;
  log : list event
}.

(** What the outside world contributes to one iteration: the clock
    reading and the outcome of the bus transaction, or a Ctrl-C. *)
Inductive input : Type :=
| Tick (elapsed_time : R) (r : write_result)
| CtrlC.

Section Loop.

Variable cfg : config.

(** Lines 106-117: the transaction of one iteration and its
    [except IOError] handler. *)
Definition transact (s : state) (payload : list Z) (r : write_result)
    : state :=
  let log' :=
    log s ++ [Write (MCP4728_ADDRESS cfg) SEQ_WRITE_COMMAND payload r] in
  match r with
  | Success =>
      if first_run s
      then {| control := Running; first_run := false;
              log := log' ++ [Print MsgFirstWriteOk] |}
      else {| control := Running; first_run := first_run s;
              log := log' |}
  | Failure =>
      if first_run s
      then {| control := Faulted; first_run := first_run s;
              log := log' ++ [Print MsgDeviceUnreachable;
                              Print MsgWillExit] |}
      else {| control := Running; first_run := first_run s;
              log := log' |}
  end.

(** One iteration of [while True] (lines 65-120).  A state that has
    left the loop takes no further step. *)
Definition step (s : state) (i : input) : state :=
  match control s with
  | Running =>
      match i with
      | CtrlC =>
          {| control := Stopped; first_run := first_run s;
             log := log s |}
      | Tick elapsed_time r =>
          match i2c_payload cfg elapsed_time with
          | Raise e =>
              {| control := Aborted e; first_run := first_run s;
                 log := log s |}
          | Ok payload => transact s payload r
          end
      end
  | _ => s
  end.

(** Lines 55-63: the messages printed before the loop, and
    [first_run = True]. *)
Definition initial : state := {|
  control := Running;
  first_run := true;
  log := [Print MsgBusOpened; Print MsgPressCtrlC] ++
         (if (VREF_MODE cfg =? 0) && (GAIN_MODE cfg =? 1)
          then [Print MsgGainWarning] else [])
|}.

Definition run_from (s : state) (inputs : list input) : state :=
  fold_left step inputs s.

Definition run (inputs : list input) : state := run_from initial inputs.

(** *** The [finally] block (lines 126-142) *)

(** Line 133. *)
Definition zero_msb : Z :=
  Z.lor (Z.shiftl (Z.land (VREF_MODE cfg) 0x01) 7)
        (Z.shiftl (Z.land (GAIN_MODE cfg) 0x01) 4).

(** Lines 131-135: [for _ in range(4)]. *)
Fixpoint extend_zero (n : nat) (zero_volt_payload : list Z) : list Z :=
  match n with
  | O => zero_volt_payload
  | S n' =>
      let data_msb := zero_msb in
      let data_lsb := 0 in
      extend_zero n' (zero_volt_payload ++ [data_msb; data_lsb])
  end.

(** Lines 130-135. *)
Definition zero_volt_payload : list Z := extend_zero 4 [].

(** Lines 127-142; [bus] tells whether the handle was acquired. *)
Definition finally (bus : bool) (r : write_result) : list event :=
  if bus then
    [Print MsgZeroing;
     Write (MCP4728_ADDRESS cfg) SEQ_WRITE_COMMAND zero_volt_payload r]
    ++ match r with
       | Success => []
       | Failure => [Print MsgZeroingFailed]
       end
    ++ [Close; Print MsgBusClosed]
  else [].

(** What is known of a run of [main] after finitely many inputs:
    whether the process has terminated, and everything it did. *)
Record outcome : Type := {
  exited : bool;
  trace : list event
}.

(** Lines 122-125: what the [except] clauses print, by the way the
    loop was left ([break] reaches none of them). *)
Definition handlers (c : status) : list event :=
  match c with
  | Stopped => [Print MsgStoppedByUser]
  | Aborted _ => [Print MsgUnexpected]
  | Faulted | Running => []
  end.

(** Lines 52-142.  [bus_available] tells whether [smbus2.SMBus]
    returns a handle (otherwise it raises); [inputs] drive the loop;
    [shutdown] is the outcome of the zeroing transaction.  While the
    loop is still running after the last input, the process has not
    exited. *)
Definition main (bus_available : bool) (inputs : list input)
    (shutdown : write_result) : outcome :=
  if bus_available then
    let s := run inputs in
    match control s with
    | Running => {| exited := false; trace := log s |}
    | c =>
        {| exited := true;
           trace := log s ++ handlers c ++ finally true shutdown |}
    end
  else
    {| exited := true;
       trace := [Print MsgUnexpected] ++ finally false shutdown |}.

End Loop.

End Communicate.

(** ** [zeroed.py] *)

Module Zeroed.

Record config : Type := {
  MCP4728_ADDRESS : Z;
  TARGET_VOLTAGE : R;
  VDD : R;
  VREF_MODE : Z;
  GAIN_MODE : Z
}.

Definition source_config : config := {|
  MCP4728_ADDRESS := 0x60;
  TARGET_VOLTAGE := 0.0%R;
  VDD := 5.0%R;
  VREF_MODE := 0;
  GAIN_MODE := 0
|}.

Definition CHANNEL_MAP (ch : channel) : Z :=
  match ch with
  | A => 0 (* 0b00 *)
  | B => 1 (* 0b01 *)
  | C => 2 (* 0b10 *)
  | D => 3 (* 0b11 *)
  end.

Section Main.

Variable cfg : config.

(** Line 45. *)
Definition digital_value : Z := 0.

(** Lines 48-52. *)
Definition data_msb : Z :=
  Z.lor (Z.lor (Z.lor (Z.lor
    (Z.shiftl (Z.land (VREF_MODE cfg) 0x01) 7)
    (Z.shiftl (Z.land 0 0x01) 6))
    (Z.shiftl (Z.land 0 0x01) 5))
    (Z.shiftl (Z.land (GAIN_MODE cfg) 0x01) 4))
    (Z.land (Z.shiftr digital_value 8) 0x0F).

(** Line 53. *)
Definition data_lsb : Z := Z.land digital_value 0xFF.

(** Line 54. *)
Definition i2c_payload : list Z := [data_msb; data_lsb].

(** Line 61: [0b01011000 | (CHANNEL_MAP[channel] << 1)]. *)
Definition command_byte (channel : channel) : Z :=
  Z.lor 0x58 (Z.shiftl (CHANNEL_MAP channel) 1).

(** Lines 56-71: the loop over the channels, with its [break] on the
    first [IOError].  [outcome_of] is the outcome of the transaction
    for each channel.  Returns [all_successful] and the log. *)
Fixpoint write_channels (channels : list channel)
    (outcome_of : channel -> write_result) : bool * list event :=
  match channels with
  | [] => (true, [])
  | channel :: rest =>
      let w := Write (MCP4728_ADDRESS cfg) (command_byte channel)
                     i2c_payload (outcome_of channel) in
      match outcome_of channel with
      | Success =>
          let (all_successful, log) := write_channels rest outcome_of in
          (all_successful, w :: Print (MsgChannelSet channel) :: log)
      | Failure =>
          (false, [w; Print (MsgChannelError channel);
                   Print MsgCheckConnections])
      end
  end.

(** Lines 32-81. *)
Definition main (bus_available : bool)
    (outcome_of : channel -> write_result) : list event :=
  if bus_available then
    let (all_successful, log) :=
      write_channels [A; B; C; D] outcome_of in
    [Print MsgBusOpened] ++ log
    ++ (if all_successful then [Print MsgAllSet] else [])
    ++ [Close; Print MsgBusClosed]
  else [Print MsgUnexpected].

End Main.

End Zeroed.

(** The source's settings with every channel frequency set to 0 Hz. *)
Definition still_config : Communicate.config := {|
  Communicate.MCP4728_ADDRESS := 0x60;
  Communicate.CHANNEL_FREQUENCIES := fun _ => 0%R;
  Communicate.VDD := 5.0%R;
  Communicate.VREF_MODE := 0;
  Communicate.GAIN_MODE := 0
|}.

(** ** The device side of [zeroed.py]

    The registers of the DAC as the transactions of a log leave them.  A
    single-channel write [0b01011CC0] addresses the register of channel
    [CC] and no other; [effect] is whatever a transaction, successful or
    failed, does to the register it addresses. *)

Definition addressed (command : Z) : option channel :=
  if command =? 0x58 then Some A
  else if command =? 0x5A then Some B
  else if command =? 0x5C then Some C
  else if command =? 0x5E then Some D
  else None.

Definition channel_eqb (c1 c2 : channel) : bool :=
  match c1, c2 with
  | A, A | B, B | C, C | D, D => true
  | _, _ => false
  end.

Section Device.

Variable register : Type.
Variable effect : write_result -> list Z -> register -> register.

Definition device_step (regs : channel -> register) (e : event)
    : channel -> register :=
  match e with
  | Write _ command data r =>
      match addressed command with
      | Some ch =>
          fun c => if channel_eqb c ch then effect r data (regs c)
                   else regs c
      | None => regs
      end
  | _ => regs
  end.

Definition device_run (regs : channel -> register) (log : list event)
    : channel -> register :=
  fold_left device_step log regs.

End Device.

(** ** Specification-side definitions *)

(** The register encoder as the design document words it (section 4.2),
    on the boolean settings [referenceMode] and [gainMode]. *)
Module Spec.

(** Step 1. *)
Definition vref (vdd : R) (referenceMode gainMode : bool) : R :=
  if referenceMode then (2.048 * (if gainMode then 2 else 1))%R else vdd.

(** Step 2: saturation into [[lo, hi]]. *)
Definition clamp (lo hi x : R) : R := Rmax lo (Rmin x hi).

(** Step 3. *)
Definition digitalValue (vref voltage : R) : Z :=
  Zfloor (clamp 0 vref voltage / vref * 4095).

(** Step 4. *)
Definition msb (referenceMode gainMode : bool) (digitalValue : Z) : Z :=
  Z.lor (Z.lor (Z.lor (Z.lor
    (Z.shiftl (Z.b2z referenceMode) 7)
    (Z.shiftl 0 6))
    (Z.shiftl 0 5))
    (Z.shiftl (Z.b2z gainMode) 4))
    (Z.land (Z.shiftr digitalValue 8) 0xF).

(** Step 5. *)
Definition lsb (digitalValue : Z) : Z := Z.land digitalValue 0xFF.

(** Reading the bit layout of section 6 back: bit 7 of the MSB is the
    reference mode, bit 4 the gain mode, and the low nibble of the MSB
    followed by the LSB is the 12-bit digital value. *)
Definition decode (msb lsb : Z) : bool * bool * Z :=
  (Z.testbit msb 7, Z.testbit msb 4,
   Z.lor (Z.shiftl (Z.land msb 0xF) 8) lsb).

(** [n] is an integer nearest to [x] (either one, at a tie). *)
Definition nearest (x : R) (n : Z) : Prop := (Rabs (x - IZR n) <= 1 / 2)%R.

(** Rounding to nearest, ties upwards. *)
Definition round (x : R) : Z := Zfloor (x + 1 / 2).

(** The single-channel write command, [0b0101_1CC0]: the bits from the
    most significant one down, [c1 c0] being the channel selector. *)
Definition of_bits (bits : list bool) : Z :=
  fold_left (fun acc (b : bool) => 2 * acc + Z.b2z b) bits 0.

Definition selector (ch : channel) : bool * bool :=
  match ch with
  | A => (false, false)
  | B => (false, true)
  | C => (true, false)
  | D => (true, true)
  end.

Definition single_write_command (ch : channel) : Z :=
  let (c1, c0) := selector ch in
  of_bits [false; true; false; true; true; c1; c0; false].

Definition sequential_write_command : Z :=
  of_bits [false; true; false; false; false; false; false; false].

End Spec.

(** A byte of an I2C block. *)
Definition is_byte (b : Z) : Prop := 0 <= b <= 255.

(** The payload of a bus transaction has [n] bytes. *)
Definition payload_has (n : nat) (e : event) : Prop :=
  match e with
  | Write _ _ data _ => length data = n
  | _ => True
  end.

(** A bus transaction goes to [address] with command byte [command]. *)
Definition sent_with (address command : Z) (e : event) : Prop :=
  match e with
  | Write a c _ _ => a = address /\ c = command
  | _ => True
  end.

(** A single-channel write of [zeroed.py]: to [address], with the command
    byte of one of the four channels. *)
Definition single_write_to (address : Z) (e : event) : Prop :=
  match e with
  | Write a c _ _ =>
      a = address /\ exists ch : channel, c = Spec.single_write_command ch
  | _ => True
  end.

(** The transaction of [zeroed.py] for one channel, [outcome_of] giving
    the outcome of each channel's transaction. *)
Definition channel_write (cfg : Zeroed.config)
    (outcome_of : channel -> write_result) (c : channel) : event :=
  Write (Zeroed.MCP4728_ADDRESS cfg) (Zeroed.command_byte c)
        (Zeroed.i2c_payload cfg) (outcome_of c).

(** How often a message is printed in a log. *)
Definition message_eq_dec (m1 m2 : message) : {m1 = m2} + {m1 <> m2}.
Proof. decide equality; decide equality. Defined.

Definition is_print (m : message) (e : event) : bool :=
  match e with
  | Print m' => if message_eq_dec m m' then true else false
  | _ => false
  end.

Definition occurrences (m : message) (log : list event) : nat :=
  length (filter (is_print m) log).

(** Every byte handed to a bus transaction fits the I2C block. *)
Definition carries_bytes (e : event) : Prop :=
  match e with
  | Write _ _ data _ => Forall is_byte data
  | _ => True
  end.

(** The inputs of a run of [communicate.py] made of ticks only, from the
    clock reading and the transaction outcome of each. *)
Definition ticks (l : list (R * write_result)) : list Communicate.input :=
  map (fun p => Communicate.Tick (fst p) (snd p)) l.

(** Reading a sequential-write payload back, two bytes per channel. *)
Fixpoint decode_payload (payload : list Z) : list (bool * bool * Z) :=
  match payload with
  | msb :: lsb :: rest => Spec.decode msb lsb :: decode_payload rest
  | _ => []
  end.

(** ** [picture.py] *)

Module Picture.

Local Open Scope R_scope.

(** The kinds of frame the device yields. *)
Inductive FrameType : Type := Color | Ir | Depth.

(** A frame as [to_array] returns it: rows of pixels, distances in
    millimetres. *)
Definition frame : Type := list (list R).

Definition MM_TO_INCHES : R := 0.0393701.

(** What the script prints: the three lines of the initialisation error,
    the start line, and the closest-point line with the number it
    formats. *)
Inductive output : Type :=
| InitError
| CheckDevice
| UnderlyingError
| Initialized
| ClosestPoint (min_depth_inches : R).

(** Line 57: [depth_data[depth_data > 0]], the pixels above zero in
    row-major order. *)
Definition non_zero_depths (depth_data : frame) : list R :=
  filter (fun d => if Rgt_dec d 0 then true else false) (concat depth_data).

(** [np.min] of an array with first element [d]. *)
Definition np_min (d : R) (rest : list R) : R := fold_left Rmin rest d.

(** Lines 47-70: the body of the loop for one frame. *)
Definition process (frame_type : FrameType) (data : frame) : list output :=
  match frame_type with
  | Depth =>
      match non_zero_depths data with
      | [] => []
      | d :: rest =>
          let min_depth_mm := np_min d rest in
          let min_depth_inches := min_depth_mm * MM_TO_INCHES in
          [ClosestPoint min_depth_inches]
      end
  | _ => []
  end.

(** Lines 25-70, for the frames received so far; [device_available]
    tells whether [Device()] returns. *)
Definition main (device_available : bool)
    (frames : list (FrameType * frame)) : list output :=
  if device_available then
    Initialized :: flat_map (fun f => process (fst f) (snd f)) frames
  else [InitError; CheckDevice; UnderlyingError].

End Picture.

(** ** [pcl.py] *)

Module Pcl.

Local Open Scope R_scope.

(** A coordinate of the point cloud: a finite number, or one of nan and
    the infinities. *)
Inductive coordinate : Type :=
| Finite (x : R)
| NonFinite.

Definition point : Type := (coordinate * coordinate * coordinate)%type.

(** What [o3d.io.read_point_cloud] does: it returns a cloud or raises. *)
Inductive read_result : Type :=
| Cloud (points : list point)
| RaiseFileNotFound
| RaiseOther.

Inductive output : Type :=
| ErrorEmpty
| Loaded (n : nat)
| ErrorNoFinite
| Processing (n : nat)
| Separator
| Closest (x y z : R)
| Distance (min_distance : R)
| ErrorNotFound
| ErrorUnexpected.

(** Lines 23-24: the rows all of whose coordinates are finite. *)
Fixpoint finite_rows (points : list point) : list (R * R * R) :=
  match points with
  | [] => []
  | (Finite x, Finite y, Finite z) :: rest => (x, y, z) :: finite_rows rest
  | _ :: rest => finite_rows rest
  end.

(** Line 32: the Euclidean norm of [point - origin_point], the origin
    being [(0, 0, 0)]. *)
Definition norm (p : R * R * R) : R :=
  let '(x, y, z) := p in
  sqrt ((x - 0) * (x - 0) + (y - 0) * (y - 0) + (z - 0) * (z - 0)).

(** [np.argmin]: the index of the first occurrence of the minimum. *)
Fixpoint argmin_from (best_index : nat) (best : R) (index : nat)
    (distances : list R) : nat :=
  match distances with
  | [] => best_index
  | d :: rest =>
      if Rlt_dec d best then argmin_from index d (S index) rest
      else argmin_from best_index best (S index) rest
  end.

Definition argmin (distances : list R) : nat :=
  match distances with
  | [] => O
  | d :: rest => argmin_from O d 1 rest
  end.

(** Lines 12-49. *)
Definition main (read : read_result) : list output :=
  match read with
  | RaiseFileNotFound => [ErrorNotFound]
  | RaiseOther => [ErrorUnexpected]
  | Cloud [] => [ErrorEmpty]
  | Cloud all_points =>
      let points := finite_rows all_points in
      match points with
      | [] => [Loaded (length all_points); ErrorNoFinite]
      | _ =>
          let distances := map norm points in
          let min_index := argmin distances in
          let '(x, y, z) := nth min_index points (0, 0, 0) in
          let min_distance := nth min_index distances 0 in
          [Loaded (length all_points); Processing (length points);
           Separator; Closest x y z; Distance min_distance]
      end
  end.

(** Lines 32-39 for any way [distance] of computing the distance of a
    point to the origin ([np.linalg.norm] rounds; [norm] is its exact
    value): the first point of least computed distance, and that
    distance. *)
Definition closest_by (distance : R * R * R -> R)
    (points : list (R * R * R)) : (R * R * R) * R :=
  let distances := map distance points in
  let min_index := argmin distances in
  (nth min_index points (0, 0, 0), nth min_index distances 0).

(** Lines 12-49 with the distance computed by [distance]. *)
Definition main_by (distance : R * R * R -> R) (read : read_result)
    : list output :=
  match read with
  | RaiseFileNotFound => [ErrorNotFound]
  | RaiseOther => [ErrorUnexpected]
  | Cloud [] => [ErrorEmpty]
  | Cloud all_points =>
      let points := finite_rows all_points in
      match points with
      | [] => [Loaded (length all_points); ErrorNoFinite]
      | _ =>
          let '((x, y, z), min_distance) := closest_by distance points in
          [Loaded (length all_points); Processing (length points);
           Separator; Closest x y z; Distance min_distance]
      end
  end.

End Pcl.

(** ** [bluetooth.py] *)

Module Bluetooth.

Import String Ascii.

Definition CHAR_RX_UUID : string := "f3711319-333e-41a4-b04b-32a7b8e1136c".
Definition CHAR_TX_UUID : string := "d1aea128-4f7e-4c4f-a7b5-c603a111a00a".

(** [str.lower] on the letters A to Z; a message is the string of its
    encoded bytes, which [msg.encode()] hands to the device as they are. *)
Definition lower_ascii (c : ascii) : ascii :=
  let n := nat_of_ascii c in
  if ((65 <=? n) && (n <=? 90))%nat then ascii_of_nat (n + 32) else c.

Fixpoint lower (s : string) : string :=
  match s with
  | EmptyString => EmptyString
  | String c rest => String (lower_ascii c) (lower rest)
  end.

(** What the user does at the prompt. *)
Inductive user : Type :=
| Line (msg : string)
| CtrlC.

Inductive event : Type :=
| PrintScanning
| PrintNotFound
| PrintFound
| Connect
| PrintFailedToConnect
| PrintConnected
| StartNotify (uuid : string)
| PrintSubscribed
| WriteGattChar (uuid : string) (data : string)
| PrintSent (msg : string)
| StopNotify (uuid : string)
| Disconnect.

(** How the interactive loop stands: still waiting at the prompt, left
    through [break] after a [quit] line, or cancelled.  The script runs
    [main] under [asyncio.run]: a Ctrl-C cancels the task of [main], so the
    [await] of line 39 raises [CancelledError]; the clause
    [except KeyboardInterrupt] of line 47 does not catch it. *)
Inductive loop_end : Type :=
| Waiting
| Quit
| Cancelled.

(** Lines 37-48: the interactive loop, with how it stands and what it
    did. *)
Fixpoint send_loop (inputs : list user) : loop_end * list event :=
  match inputs with
  | [] => (Waiting, [])
  | CtrlC :: _ => (Cancelled, [])
  | Line msg :: rest =>
      if String.eqb (lower msg) "quit" then (Quit, [])
      else
        let (ending, log) := send_loop rest in
        (ending, WriteGattChar CHAR_RX_UUID msg :: PrintSent msg :: log)
  end.

(** Lines 13-51.  [found] and [connected] tell what the scan and
    [client.is_connected] give; the result tells whether [main] has
    returned, and what it did.  A cancelled [main] leaves the client
    (which disconnects) without reaching line 51, and does not return. *)
Definition main (found connected : bool) (inputs : list user)
    : bool * list event :=
  if found then
    if connected then
      let (ending, log) := send_loop inputs in
      let before :=
        [PrintScanning; PrintFound; Connect; PrintConnected;
         StartNotify CHAR_TX_UUID; PrintSubscribed] ++ log in
      match ending with
      | Quit => (true, before ++ [StopNotify CHAR_TX_UUID; Disconnect])
      | Cancelled => (false, before ++ [Disconnect])
      | Waiting => (false, before)
      end
    else
      (true, [PrintScanning; PrintFound; Connect; PrintFailedToConnect;
              Disconnect])
  else (true, [PrintScanning; PrintNotFound]).

(** The operations on the link to the device. *)
Definition is_gatt (e : event) : bool :=
  match e with
  | StartNotify _ | WriteGattChar _ _ | StopNotify _ => true
  | _ => false
  end.

End Bluetooth.

(** ** Arithmetic of the quantisation *)

Section Quantisation.

Local Open Scope R_scope.

Lemma int_nonneg (x : R) : 0 <= x -> int x = Zfloor x.
Proof.
  intro Hx. unfold int.
  destruct (Rlt_dec x 0) as [Hneg | _]; [lra | reflexivity].
Qed.

Lemma int_IZR (z : Z) : int (IZR z) = z.
Proof.
  unfold int. destruct (Rlt_dec (IZR z) 0) as [_ | _].
  - unfold Zceil. rewrite <- opp_IZR, ZfloorZ. lia.
  - apply ZfloorZ.
Qed.

Lemma Zfloor_range (x : R) (n : Z) :
  0 <= x <= IZR n -> (0 <= Zfloor x <= n)%Z.
Proof.
  intros [Hlo Hhi]. split.
  - apply Zfloor_lub. simpl. exact Hlo.
  - apply le_IZR. pose proof (Zfloor_bound x) as [Hb _]. lra.
Qed.

Lemma ratio_range (v vref : R) :
  0 < vref -> 0 <= v <= vref -> 0 <= v / vref * 4095 <= 4095.
Proof.
  intros Hpos [Hlo Hhi].
  assert (Hq : 0 <= v / vref <= 1).
  { split.
    - apply Rmult_le_pos; [exact Hlo |].
      apply Rlt_le, Rinv_0_lt_compat, Hpos.
    - apply (Rmult_le_reg_r vref); [exact Hpos |].
      unfold Rdiv. rewrite Rmult_assoc, Rinv_l by lra. lra. }
  lra.
Qed.

Lemma spec_clamp_range (vref v : R) :
  0 < vref -> 0 <= Spec.clamp 0 vref v <= vref.
Proof.
  intro Hpos. unfold Spec.clamp, Rmax, Rmin.
  destruct (Rle_dec v vref); destruct (Rle_dec 0 _); lra.
Qed.

Lemma spec_clamp_id (vref v : R) :
  0 <= v <= vref -> Spec.clamp 0 vref v = v.
Proof.
  intros [Hlo Hhi]. unfold Spec.clamp, Rmax, Rmin.
  destruct (Rle_dec v vref); destruct (Rle_dec 0 _); lra.
Qed.

(** The integer part is never further than one from a nearest integer. *)
Lemma floor_near (x : R) (n : Z) :
  Spec.nearest x n -> (Z.abs (Zfloor x - n) <= 1)%Z.
Proof.
  unfold Spec.nearest. intro Hn.
  pose proof (Zfloor_bound x) as [Hlo Hhi].
  assert (Hn1 : - (1 / 2) <= x - IZR n).
  { pose proof (Rle_abs (- (x - IZR n))) as Ha.
    rewrite Rabs_Ropp in Ha. lra. }
  assert (Hn2 : x - IZR n <= 1 / 2).
  { pose proof (Rle_abs (x - IZR n)). lra. }
  assert (H1 : (Zfloor x - n < 1)%Z).
  { apply lt_IZR. rewrite minus_IZR. lra. }
  assert (H2 : (- 2 < Zfloor x - n)%Z).
  { apply lt_IZR. rewrite minus_IZR. lra. }
  lia.
Qed.

Lemma round_nearest (x : R) : Spec.nearest x (Spec.round x).
Proof.
  unfold Spec.nearest, Spec.round.
  pose proof (Zfloor_bound (x + 1 / 2)) as [Hlo Hhi].
  apply Rabs_le. lra.
Qed.

End Quantisation.

(** ** Bit layout of the two data bytes *)

Section BitLayout.

Import Communicate.

Variable cfg : config.

Ltac bits_at :=
  repeat (rewrite ?Z.lor_spec, ?Z.land_spec, ?Z.shiftl_spec,
            ?Z.shiftr_spec by lia);
  cbn;
  rewrite ?andb_true_r, ?andb_false_r, ?orb_false_r, ?orb_false_l;
  try reflexivity.

Ltac masks_as_ones :=
  change 0x0F with (Z.ones 4); change 0x01 with (Z.ones 1);
  change 0xFF with (Z.ones 8);
  simpl (Z.land 0 _); simpl (Z.shiftl 0 _).

Lemma data_msb_bit7 (d : Z) :
  Z.testbit (data_msb cfg d) 7 = Z.testbit (VREF_MODE cfg) 0.
Proof. unfold data_msb. bits_at. Qed.

Lemma data_msb_bit6 (d : Z) : Z.testbit (data_msb cfg d) 6 = false.
Proof. unfold data_msb. bits_at. Qed.

Lemma data_msb_bit5 (d : Z) : Z.testbit (data_msb cfg d) 5 = false.
Proof. unfold data_msb. bits_at. Qed.

Lemma data_msb_bit4 (d : Z) :
  Z.testbit (data_msb cfg d) 4 = Z.testbit (GAIN_MODE cfg) 0.
Proof. unfold data_msb. bits_at. Qed.

Lemma data_msb_low_nibble (d : Z) :
  Z.land (data_msb cfg d) 0xF = Z.land (Z.shiftr d 8) 0xF.
Proof. unfold data_msb. masks_as_ones. Z.bitblast. Qed.

Lemma data_msb_byte (d : Z) : is_byte (data_msb cfg d).
Proof.
  assert (H : data_msb cfg d = Z.land (data_msb cfg d) (Z.ones 8)).
  { unfold data_msb. masks_as_ones. Z.bitblast. }
  rewrite Z.land_ones in H by lia.
  unfold is_byte. rewrite H.
  pose proof (Z.mod_pos_bound (data_msb cfg d) (2 ^ 8)). lia.
Qed.

Lemma data_lsb_byte (d : Z) : is_byte (data_lsb d).
Proof.
  unfold data_lsb. change 0xFF with (Z.ones 8).
  rewrite Z.land_ones by lia. unfold is_byte.
  pose proof (Z.mod_pos_bound d (2 ^ 8)). lia.
Qed.

Lemma high_bits_clear (d i : Z) :
  0 <= d <= 4095 -> 12 <= i -> Z.testbit d i = false.
Proof.
  intros Hd Hi.
  rewrite <- (Z.mod_small d (2 ^ 12)) by (change (2 ^ 12) with 4096; lia).
  apply Z.mod_pow2_bits_high. lia.
Qed.

(** The low nibble of the MSB and the LSB together hold all of a
    12-bit value. *)
Lemma reassemble (d : Z) :
  0 <= d <= 4095 ->
  Z.lor (Z.shiftl (Z.land (data_msb cfg d) 0xF) 8) (data_lsb d) = d.
Proof.
  intro Hd. rewrite data_msb_low_nibble. unfold data_lsb.
  change 0xF with (Z.ones 4). change 0xFF with (Z.ones 8).
  Z.bitblast.
  rewrite (high_bits_clear d l) by lia. reflexivity.
Qed.

Lemma data_msb_spec (referenceMode gainMode : bool) (d : Z) :
  VREF_MODE cfg = Z.b2z referenceMode ->
  GAIN_MODE cfg = Z.b2z gainMode ->
  data_msb cfg d = Spec.msb referenceMode gainMode d.
Proof.
  intros Hv Hg. unfold data_msb, Spec.msb. rewrite Hv, Hg.
  destruct referenceMode, gainMode; reflexivity.
Qed.

(** *** The encoder against the steps of the design document *)

Local Open Scope R_scope.

Lemma v_ref_spec (referenceMode gainMode : bool) :
  VREF_MODE cfg = Z.b2z referenceMode ->
  GAIN_MODE cfg = Z.b2z gainMode ->
  v_ref cfg = Spec.vref (VDD cfg) referenceMode gainMode.
Proof.
  intros Hv Hg. unfold v_ref, Spec.vref. rewrite Hv, Hg.
  destruct referenceMode, gainMode; reflexivity.
Qed.

Lemma spec_vref_pos (vdd : R) (referenceMode gainMode : bool) :
  0 < vdd -> 0 < Spec.vref vdd referenceMode gainMode.
Proof.
  intro Hvdd. unfold Spec.vref.
  destruct referenceMode, gainMode; lra.
Qed.

Lemma clamp_spec (voltage : R) :
  clamp cfg voltage = Spec.clamp 0 (v_ref cfg) voltage.
Proof.
  unfold clamp, Spec.clamp, Rmax, Rmin.
  destruct (Rgt_dec voltage (v_ref cfg));
    destruct (Rle_dec voltage (v_ref cfg)); try lra;
    destruct (Rlt_dec _ 0); destruct (Rle_dec 0 _); lra.
Qed.

Lemma digital_value_spec (voltage : R) :
  0 < v_ref cfg ->
  digital_value cfg voltage =
    Ok (Spec.digitalValue (v_ref cfg) voltage).
Proof.
  intro Hpos. unfold digital_value, float_div, Spec.digitalValue.
  destruct (Req_dec_T (v_ref cfg) 0) as [H0 | _]; [lra |].
  simpl. rewrite clamp_spec. f_equal. apply int_nonneg.
  apply ratio_range; [exact Hpos | apply spec_clamp_range, Hpos].
Qed.

Lemma spec_digitalValue_range (vref voltage : R) :
  0 < vref -> (0 <= Spec.digitalValue vref voltage <= 4095)%Z.
Proof.
  intro Hpos. unfold Spec.digitalValue. apply Zfloor_range.
  apply ratio_range; [exact Hpos | apply spec_clamp_range, Hpos].
Qed.

Lemma encode_spec (voltage : R) :
  0 < v_ref cfg ->
  encode cfg voltage =
    Ok (data_msb cfg (Spec.digitalValue (v_ref cfg) voltage),
        data_lsb (Spec.digitalValue (v_ref cfg) voltage)).
Proof.
  intro Hpos. unfold encode. rewrite digital_value_spec by exact Hpos.
  reflexivity.
Qed.

End BitLayout.

Lemma source_v_ref : Communicate.v_ref Communicate.source_config = 5%R.
Proof. unfold Communicate.v_ref. simpl. lra. Qed.

Lemma source_full_scale :
  Spec.digitalValue 5 5.0 = 4095.
Proof.
  unfold Spec.digitalValue.
  rewrite spec_clamp_id by lra.
  replace (5.0 / 5 * 4095)%R with (IZR 4095) by lra.
  apply ZfloorZ.
Qed.

(** C1. For a positive supply voltage, every input voltage and every pair
    of boolean settings, the encoder of [communicate.py] takes [vdd] or
    [2.048 * (2 if gainMode else 1)] as reference, saturates the voltage
    into [[0, vref]], quantises it to [floor (voltage / vref * 4095)], which
    lies in [[0, 4095]], and packs the MSB and LSB as the design document
    says, with bits 6 and 5 of the MSB zero; at 5.0 V on the source's
    settings (supply 5.0 V as reference, gain 1x) the digital value is
    4095 and the bytes are 0x0F, 0xFF. *)
Theorem encode_register_layout :
  forall (cfg : Communicate.config) (referenceMode gainMode : bool)
         (voltage : R),
    Communicate.VREF_MODE cfg = Z.b2z referenceMode ->
    Communicate.GAIN_MODE cfg = Z.b2z gainMode ->
    (0 < Communicate.VDD cfg)%R ->
    let vref := Spec.vref (Communicate.VDD cfg) referenceMode gainMode in
    let digitalValue := Spec.digitalValue vref voltage in
    let msb := Spec.msb referenceMode gainMode digitalValue in
    let lsb := Spec.lsb digitalValue in
    Communicate.v_ref cfg = vref /\
    Communicate.clamp cfg voltage = Spec.clamp 0 vref voltage /\
    (0 <= Communicate.clamp cfg voltage <= vref)%R /\
    Communicate.digital_value cfg voltage = Ok digitalValue /\
    0 <= digitalValue <= 4095 /\
    Communicate.encode cfg voltage = Ok (msb, lsb) /\
    Z.testbit msb 7 = referenceMode /\
    Z.testbit msb 6 = false /\
    Z.testbit msb 5 = false /\
    Z.testbit msb 4 = gainMode /\
    is_byte msb /\ is_byte lsb /\
    Communicate.digital_value Communicate.source_config 5.0 = Ok 4095 /\
    Communicate.encode Communicate.source_config 5.0 = Ok (0x0F, 0xFF).
Proof.
  intros cfg referenceMode gainMode voltage Hv Hg Hvdd vref digitalValue
    msb lsb.
  pose proof (v_ref_spec cfg _ _ Hv Hg) as Hvref. fold vref in Hvref.
  assert (Hpos : (0 < vref)%R) by (apply spec_vref_pos, Hvdd).
  assert (Hmsb : Communicate.data_msb cfg digitalValue = msb)
    by (apply data_msb_spec; assumption).
  assert (Hsrc : (0 < Communicate.v_ref Communicate.source_config)%R)
    by (rewrite source_v_ref; lra).
  repeat split.
  - exact Hvref.
  - rewrite clamp_spec, Hvref. reflexivity.
  - rewrite clamp_spec, Hvref. apply spec_clamp_range, Hpos.
  - rewrite clamp_spec, Hvref. apply spec_clamp_range, Hpos.
  - rewrite digital_value_spec by (rewrite Hvref; exact Hpos).
    rewrite Hvref. reflexivity.
  - apply spec_digitalValue_range, Hpos.
  - apply spec_digitalValue_range, Hpos.
  - rewrite encode_spec by (rewrite Hvref; exact Hpos).
    rewrite Hvref. fold digitalValue. rewrite Hmsb. reflexivity.
  - rewrite <- Hmsb, data_msb_bit7, Hv. destruct referenceMode; reflexivity.
  - rewrite <- Hmsb. apply data_msb_bit6.
  - rewrite <- Hmsb. apply data_msb_bit5.
  - rewrite <- Hmsb, data_msb_bit4, Hg. destruct gainMode; reflexivity.
  - rewrite <- Hmsb. apply data_msb_byte.
  - rewrite <- Hmsb. apply data_msb_byte.
  - apply (data_lsb_byte digitalValue).
  - apply (data_lsb_byte digitalValue).
  - rewrite digital_value_spec by exact Hsrc.
    rewrite source_v_ref, source_full_scale. reflexivity.
  - rewrite encode_spec by exact Hsrc.
    rewrite source_v_ref, source_full_scale. reflexivity.
Qed.

Lemma encode_register_layout_witness :
  Communicate.encode Communicate.source_config 3.3 =
    Ok (Spec.msb false false (Spec.digitalValue 5.0 3.3),
        Spec.lsb (Spec.digitalValue 5.0 3.3)).
Proof.
  apply (encode_register_layout Communicate.source_config false false 3.3).
  - reflexivity.
  - reflexivity.
  - simpl. lra.
Defined.

(** C4. For every pair of boolean settings and every voltage already
    within [[0, vref]], reading the bit layout of the two bytes produced by
    the encoder back gives the reference and gain bits again, and a digital
    value that is at most 1 away from any integer nearest to
    [voltage / vref * 4095], in particular from its rounding. *)
Theorem encode_decode_roundtrip :
  forall (cfg : Communicate.config) (referenceMode gainMode : bool)
         (voltage : R),
    Communicate.VREF_MODE cfg = Z.b2z referenceMode ->
    Communicate.GAIN_MODE cfg = Z.b2z gainMode ->
    (0 < Communicate.VDD cfg)%R ->
    (0 <= voltage <= Communicate.v_ref cfg)%R ->
    exists msb lsb d : Z,
      Communicate.encode cfg voltage = Ok (msb, lsb) /\
      Spec.decode msb lsb = (referenceMode, gainMode, d) /\
      (forall n : Z,
          Spec.nearest (voltage / Communicate.v_ref cfg * 4095) n ->
          Z.abs (d - n) <= 1) /\
      Z.abs (d - Spec.round (voltage / Communicate.v_ref cfg * 4095)) <= 1.
Proof.
  intros cfg referenceMode gainMode voltage Hv Hg Hvdd Hrange.
  assert (Hpos : (0 < Communicate.v_ref cfg)%R).
  { rewrite (v_ref_spec cfg _ _ Hv Hg). apply spec_vref_pos, Hvdd. }
  set (d := Spec.digitalValue (Communicate.v_ref cfg) voltage).
  assert (Hd : 0 <= d <= 4095) by (apply spec_digitalValue_range, Hpos).
  assert (Hfloor : d = Zfloor (voltage / Communicate.v_ref cfg * 4095)).
  { unfold d, Spec.digitalValue. rewrite spec_clamp_id by exact Hrange.
    reflexivity. }
  exists (Communicate.data_msb cfg d), (Communicate.data_lsb d), d.
  split; [apply encode_spec, Hpos |].
  split.
  - unfold Spec.decode.
    rewrite data_msb_bit7, data_msb_bit4, Hv, Hg, (reassemble cfg d Hd).
    destruct referenceMode, gainMode; reflexivity.
  - split.
    + intros n Hn. rewrite Hfloor. apply floor_near, Hn.
    + rewrite Hfloor. apply floor_near, round_nearest.
Qed.

Lemma encode_decode_roundtrip_witness :
  exists msb lsb d : Z,
    Communicate.encode Communicate.source_config 3.3 = Ok (msb, lsb) /\
    Spec.decode msb lsb = (false, false, d) /\
    (forall n : Z,
        Spec.nearest
          (3.3 / Communicate.v_ref Communicate.source_config * 4095) n ->
        Z.abs (d - n) <= 1) /\
    Z.abs (d - Spec.round
                 (3.3 / Communicate.v_ref Communicate.source_config * 4095))
      <= 1.
Proof.
  apply (encode_decode_roundtrip Communicate.source_config false false 3.3).
  - reflexivity.
  - reflexivity.
  - simpl. lra.
  - rewrite source_v_ref. lra.
Defined.

(** C5. The sample of a channel at elapsed time [t] is
    [amplitude * sin (2 * pi * frequency * t) + offset] with
    [amplitude = offset = vdd / 2]; at frequency 0 it is the constant
    [vdd / 2] (2.5 for a 5.0 V supply) for all [t]; and for a non-negative
    supply voltage it lies in [[0, vdd]]. *)
Theorem waveform_sample :
  forall (cfg : Communicate.config) (ch : channel) (t : R),
    (0 <= Communicate.VDD cfg)%R ->
    let vdd := Communicate.VDD cfg in
    let frequencyHz := Communicate.CHANNEL_FREQUENCIES cfg ch in
    Communicate.voltage cfg ch t =
      (vdd / 2 * sin (2 * PI * frequencyHz * t) + vdd / 2)%R /\
    (frequencyHz = 0%R -> Communicate.voltage cfg ch t = (vdd / 2)%R) /\
    (frequencyHz = 0%R -> vdd = 5.0%R ->
     Communicate.voltage cfg ch t = 2.5%R) /\
    (0 <= Communicate.voltage cfg ch t <= vdd)%R.
Proof.
  intros cfg ch t Hvdd vdd frequencyHz.
  assert (Hzero : frequencyHz = 0%R ->
                  Communicate.voltage cfg ch t = (vdd / 2)%R).
  { intro Hf. unfold Communicate.voltage. fold frequencyHz vdd.
    rewrite Hf.
    replace (2 * PI * 0 * t)%R with 0%R by ring.
    rewrite sin_0. lra. }
  split; [reflexivity |].
  split; [exact Hzero |].
  split.
  - intros Hf H5. rewrite (Hzero Hf), H5. lra.
  - unfold Communicate.voltage. fold frequencyHz vdd.
    pose proof (SIN_bound (2 * PI * frequencyHz * t)) as [Hlo Hhi].
    fold vdd in Hvdd. split; nra.
Qed.

Lemma waveform_sample_witness :
  Communicate.voltage still_config A 7 = 2.5%R /\
  (0 <= Communicate.voltage still_config A 7 <= 5.0)%R.
Proof.
  assert (H5 : (0 <= Communicate.VDD still_config)%R) by (simpl; lra).
  destruct (waveform_sample still_config A 7 H5) as (_ & _ & Hconst & Hrng).
  split.
  - apply Hconst; reflexivity.
  - exact Hrng.
Defined.

(** ** The update loop *)

Section LoopFacts.

Import Communicate.

Variable cfg : config.

Lemma writes_app (l1 l2 : list event) :
  writes (l1 ++ l2) = writes l1 ++ writes l2.
Proof. apply filter_app. Qed.

Lemma run_snoc (inputs : list input) (i : input) :
  run cfg (inputs ++ [i]) = step cfg (run cfg inputs) i.
Proof. unfold run, run_from. rewrite fold_left_app. reflexivity. Qed.

(** A state that has left the loop stays as it is. *)
Lemma step_terminated (s : state) (i : input) :
  control s <> Running -> step cfg s i = s.
Proof.
  intro H. unfold step. destruct (control s); congruence.
Qed.

(** The shape of an iteration that starts in the loop. *)
Lemma step_running (s : state) (i : input) :
  control s = Running ->
  step cfg s i =
    match i with
    | CtrlC =>
        {| control := Stopped; first_run := first_run s; log := log s |}
    | Tick elapsed_time r =>
        match i2c_payload cfg elapsed_time with
        | Raise e =>
            {| control := Aborted e; first_run := first_run s;
               log := log s |}
        | Ok payload => transact cfg s payload r
        end
    end.
Proof. intro H. unfold step. rewrite H. reflexivity. Qed.

Lemma step_stays_running (s : state) (i : input) :
  control (step cfg s i) = Running -> control s = Running.
Proof.
  intro H. destruct (control s) eqn:Hc; try reflexivity;
    rewrite step_terminated in H by congruence; congruence.
Qed.

(** An iteration that stays in the loop was a tick whose payload was
    built and sent, and [first_run] is cleared after it. *)
Lemma step_running_inv (s : state) (i : input) :
  control (step cfg s i) = Running ->
  exists t r payload,
    i = Tick t r /\ i2c_payload cfg t = Ok payload /\
    first_run (step cfg s i) = false /\
    writes (log (step cfg s i)) =
      writes (log s) ++
      [Write (MCP4728_ADDRESS cfg) SEQ_WRITE_COMMAND payload r].
Proof.
  intro H. pose proof (step_stays_running s i H) as Hs.
  rewrite (step_running s i Hs) in *.
  destruct i as [t r |]; [| discriminate].
  destruct (i2c_payload cfg t) as [payload | e] eqn:Hp; [| discriminate].
  exists t, r, payload. split; [reflexivity |]. split; [exact Hp |].
  unfold transact in *.
  destruct r, (first_run s) eqn:Hf; simpl in *;
    try discriminate; rewrite ?writes_app; simpl;
    rewrite ?app_nil_r; auto.
Qed.

Lemma initial_writes : writes (log (initial cfg)) = [].
Proof.
  unfold initial. simpl.
  destruct ((VREF_MODE cfg =? 0) && (GAIN_MODE cfg =? 1))%bool;
    reflexivity.
Qed.

(** While the loop runs, every input so far was a tick with one
    transaction, and [first_run] holds exactly before the first one. *)
Lemma run_running (inputs : list input) :
  control (run cfg inputs) = Running ->
  length (writes (log (run cfg inputs))) = length inputs /\
  (inputs <> [] -> first_run (run cfg inputs) = false).
Proof.
  induction inputs as [| i inputs IH] using rev_ind; intro H.
  - split; [| congruence].
    change (run cfg []) with (initial cfg).
    rewrite initial_writes. reflexivity.
  - rewrite run_snoc in *.
    destruct (step_running_inv _ _ H) as (t & r & payload & _ & _ & Hf & Hw).
    destruct (IH (step_stays_running _ _ H)) as [IHlen _].
    split; [| intros _; exact Hf].
    rewrite Hw. rewrite !length_app, IHlen. reflexivity.
Qed.

(** Everything the loop logs is a message or a sequential write of a
    payload built by the tick. *)
Lemma run_log_Forall (P : event -> Prop) :
  (forall m, P (Print m)) ->
  (forall t payload r,
      i2c_payload cfg t = Ok payload ->
      P (Write (MCP4728_ADDRESS cfg) SEQ_WRITE_COMMAND payload r)) ->
  forall inputs, Forall P (log (run cfg inputs)).
Proof.
  intros Hprint Hwrite.
  induction inputs as [| i inputs IH] using rev_ind.
  - unfold run, run_from, initial. simpl.
    destruct ((VREF_MODE cfg =? 0) && (GAIN_MODE cfg =? 1))%bool;
      repeat constructor; apply Hprint.
  - rewrite run_snoc.
    destruct (control (run cfg inputs)) eqn:Hc;
      try (rewrite step_terminated by congruence; exact IH).
    rewrite (step_running _ _ Hc).
    destruct i as [t r |]; [| exact IH].
    destruct (i2c_payload cfg t) as [payload | e] eqn:Hp; [| exact IH].
    unfold transact.
    destruct r, (first_run (run cfg inputs)); simpl;
      repeat (apply Forall_app; split); try exact IH;
      repeat constructor; try apply Hprint; apply (Hwrite t), Hp.
Qed.

(** A run that took the fault exit made one transaction, the failed
    one of its first tick. *)
Lemma run_faulted (inputs : list input) :
  control (run cfg inputs) = Faulted ->
  exists t payload rest,
    inputs = Tick t Failure :: rest /\
    i2c_payload cfg t = Ok payload /\
    writes (log (run cfg inputs)) =
      [Write (MCP4728_ADDRESS cfg) SEQ_WRITE_COMMAND payload Failure].
Proof.
  induction inputs as [| i inputs IH] using rev_ind; intro H.
  - discriminate.
  - rewrite run_snoc in *.
    destruct (control (run cfg inputs)) eqn:Hc.
    + pose proof (run_running inputs Hc) as [_ Hfirst].
      rewrite (step_running _ _ Hc) in *.
      destruct i as [t r |]; [| discriminate].
      destruct (i2c_payload cfg t) as [payload | e] eqn:Hp;
        [| discriminate].
      unfold transact in *.
      destruct r; [destruct (first_run (run cfg inputs)); discriminate |].
      destruct (first_run (run cfg inputs)) eqn:Hfr; [| discriminate].
      destruct inputs as [| i0 inputs'].
      * exists t, payload, []. split; [reflexivity |].
        split; [exact Hp |].
        cbn [log]. rewrite !writes_app.
        change (run cfg []) with (initial cfg).
        rewrite initial_writes. reflexivity.
      * assert (Hne : i0 :: inputs' <> []) by discriminate.
        specialize (Hfirst Hne). congruence.
    + rewrite step_terminated in * by congruence.
      destruct (IH eq_refl) as (t & payload & rest & Hin & Hp & Hw).
      exists t, payload, (rest ++ [i]). rewrite Hin at 1.
      repeat split; assumption.
    + rewrite step_terminated in H by congruence. congruence.
    + rewrite step_terminated in H by congruence. congruence.
Qed.

(** The three ways out of the loop are all taken by some run: Ctrl-C,
    a failed first transaction, and the [ZeroDivisionError] of the encoder
    when the reference voltage is zero. *)
Lemma exit_paths (t : R) (r : write_result) :
  control (run cfg [CtrlC]) = Stopped /\
  (v_ref cfg <> 0%R -> control (run cfg [Tick t Failure]) = Faulted) /\
  (v_ref cfg = 0%R ->
   control (run cfg [Tick t r]) = Aborted ZeroDivisionError).
Proof.
  split; [reflexivity |]. split.
  - intro Hne. unfold run, run_from. simpl.
    rewrite step_running by reflexivity.
    unfold i2c_payload, channel_order. simpl.
    unfold encode, digital_value, float_div.
    destruct (Req_dec_T (v_ref cfg) 0) as [H0 | _]; [contradiction |].
    reflexivity.
  - intro H0. unfold run, run_from. simpl.
    rewrite step_running by reflexivity.
    unfold i2c_payload, channel_order. simpl.
    unfold encode, digital_value, float_div.
    destruct (Req_dec_T (v_ref cfg) 0) as [_ | Hne]; [| contradiction].
    reflexivity.
Qed.

Lemma zero_volt_payload_eq :
  zero_volt_payload cfg =
    [zero_msb cfg; 0; zero_msb cfg; 0; zero_msb cfg; 0; zero_msb cfg; 0].
Proof. reflexivity. Qed.

Lemma zero_msb_data_msb : zero_msb cfg = data_msb cfg 0.
Proof.
  unfold zero_msb, data_msb. simpl.
  rewrite !Z.lor_0_r. reflexivity.
Qed.

Lemma finally_eq (r : write_result) :
  finally cfg true r =
    [Print MsgZeroing;
     Write (MCP4728_ADDRESS cfg) SEQ_WRITE_COMMAND (zero_volt_payload cfg) r]
    ++ match r with
       | Success => []
       | Failure => [Print MsgZeroingFailed]
       end
    ++ [Close; Print MsgBusClosed].
Proof. reflexivity. Qed.

(** A run of [main] that has left the loop: the log of the loop, the
    message of the [except] clause, the [finally] block. *)
Lemma main_exit (inputs : list input) (shutdown : write_result) :
  control (run cfg inputs) <> Running ->
  main cfg true inputs shutdown =
    {| exited := true;
       trace := log (run cfg inputs)
                ++ handlers (control (run cfg inputs))
                ++ finally cfg true shutdown |}.
Proof.
  intro H. unfold main.
  destruct (control (run cfg inputs)); congruence.
Qed.

Lemma main_running (inputs : list input) (shutdown : write_result) :
  control (run cfg inputs) = Running ->
  main cfg true inputs shutdown =
    {| exited := false; trace := log (run cfg inputs) |}.
Proof. intro H. unfold main. rewrite H. reflexivity. Qed.

Lemma main_exited_iff (inputs : list input) (shutdown : write_result) :
  exited (main cfg true inputs shutdown) = true <->
  control (run cfg inputs) <> Running.
Proof.
  split.
  - intros He Hc. rewrite (main_running _ _ Hc) in He. discriminate.
  - intro H. rewrite (main_exit _ _ H). reflexivity.
Qed.

Lemma handlers_no_write (c : status) : writes (handlers c) = [].
Proof. destruct c; reflexivity. Qed.

Lemma handlers_no_close (c : status) : filter is_close (handlers c) = [].
Proof. destruct c; reflexivity. Qed.

Lemma run_no_close (inputs : list input) :
  filter is_close (log (run cfg inputs)) = [].
Proof.
  assert (H : Forall (fun e => is_close e = false) (log (run cfg inputs)))
    by (apply run_log_Forall; reflexivity).
  induction H as [| e l He _ IH]; [reflexivity |].
  simpl. rewrite He. exact IH.
Qed.

End LoopFacts.

(** ** The payload of a tick *)

Section PayloadFacts.

Import Communicate.

Variable cfg : config.

(** The encoder returns unless the reference voltage is zero. *)
Lemma encode_total (v : R) :
  v_ref cfg <> 0%R ->
  exists d, digital_value cfg v = Ok d /\
            encode cfg v = Ok (data_msb cfg d, data_lsb d).
Proof.
  intro Hne. unfold encode, digital_value, float_div.
  destruct (Req_dec_T (v_ref cfg) 0) as [H0 | _]; [contradiction |].
  simpl. eexists. split; reflexivity.
Qed.

Lemma encode_inv (v : R) (bytes : Z * Z) :
  encode cfg v = Ok bytes ->
  exists d, digital_value cfg v = Ok d /\
            bytes = (data_msb cfg d, data_lsb d).
Proof.
  unfold encode. destruct (digital_value cfg v) as [d | e]; simpl;
    intro H; [| discriminate].
  exists d. split; [reflexivity | congruence].
Qed.

(** A payload that was built holds the two bytes of A, B, C and D, in
    this order. *)
Lemma i2c_payload_inv (t : R) (payload : list Z) :
  i2c_payload cfg t = Ok payload ->
  exists dA dB dC dD,
    digital_value cfg (voltage cfg A t) = Ok dA /\
    digital_value cfg (voltage cfg B t) = Ok dB /\
    digital_value cfg (voltage cfg C t) = Ok dC /\
    digital_value cfg (voltage cfg D t) = Ok dD /\
    payload = [data_msb cfg dA; data_lsb dA; data_msb cfg dB; data_lsb dB;
               data_msb cfg dC; data_lsb dC; data_msb cfg dD; data_lsb dD].
Proof.
  unfold i2c_payload, channel_order. simpl. unfold encode.
  destruct (digital_value cfg (voltage cfg A t)) as [dA | e];
    [| discriminate].
  destruct (digital_value cfg (voltage cfg B t)) as [dB | e];
    [| discriminate].
  destruct (digital_value cfg (voltage cfg C t)) as [dC | e];
    [| discriminate].
  destruct (digital_value cfg (voltage cfg D t)) as [dD | e];
    [| discriminate].
  simpl. intro H. exists dA, dB, dC, dD.
  repeat (split; [reflexivity |]). congruence.
Qed.

Lemma i2c_payload_total (t : R) :
  v_ref cfg <> 0%R -> exists payload, i2c_payload cfg t = Ok payload.
Proof.
  intro Hne. unfold i2c_payload, channel_order. simpl.
  destruct (encode_total (voltage cfg A t) Hne) as (dA & _ & ->).
  destruct (encode_total (voltage cfg B t) Hne) as (dB & _ & ->).
  destruct (encode_total (voltage cfg C t) Hne) as (dC & _ & ->).
  destruct (encode_total (voltage cfg D t) Hne) as (dD & _ & ->).
  simpl. eexists. reflexivity.
Qed.

Lemma i2c_payload_length (t : R) (payload : list Z) :
  i2c_payload cfg t = Ok payload -> length payload = 8%nat.
Proof.
  intro H. destruct (i2c_payload_inv t payload H)
    as (dA & dB & dC & dD & _ & _ & _ & _ & ->).
  reflexivity.
Qed.

Lemma i2c_payload_bytes (t : R) (payload : list Z) :
  i2c_payload cfg t = Ok payload -> Forall is_byte payload.
Proof.
  intro H. destruct (i2c_payload_inv t payload H)
    as (dA & dB & dC & dD & _ & _ & _ & _ & ->).
  repeat constructor; try apply data_msb_byte; apply data_lsb_byte.
Qed.

End PayloadFacts.

(** C2. The loop of [communicate.py] is left through the fault exit only
    on its very first tick, by a failed transaction: a run that took this
    exit made that one transaction and no other, and while the loop runs
    the step to the fault exit is only possible before any tick has been
    made (where a failed transaction does take it).  On any later tick a
    failed transaction leaves the loop running with [first_run] unchanged,
    and the next tick issues its transaction. *)
Theorem fault_only_on_first_tick :
  forall (cfg : Communicate.config) (inputs : list Communicate.input)
         (i : Communicate.input),
    let s := Communicate.run cfg inputs in
    let sent payload r :=
      Write (Communicate.MCP4728_ADDRESS cfg) Communicate.SEQ_WRITE_COMMAND
            payload r in
    (Communicate.control s = Communicate.Faulted ->
     exists t payload rest,
       inputs = Communicate.Tick t Failure :: rest /\
       Communicate.i2c_payload cfg t = Ok payload /\
       writes (Communicate.log s) = [sent payload Failure]) /\
    (Communicate.control s = Communicate.Running ->
     length (writes (Communicate.log s)) = length inputs /\
     (Communicate.control (Communicate.step cfg s i) = Communicate.Faulted ->
      inputs = [] /\
      exists t payload,
        i = Communicate.Tick t Failure /\
        Communicate.i2c_payload cfg t = Ok payload) /\
     (forall t payload,
         Communicate.i2c_payload cfg t = Ok payload ->
         inputs = [] ->
         Communicate.control
           (Communicate.step cfg s (Communicate.Tick t Failure))
           = Communicate.Faulted) /\
     (forall t payload,
         Communicate.i2c_payload cfg t = Ok payload ->
         inputs <> [] ->
         let s' := Communicate.step cfg s (Communicate.Tick t Failure) in
         Communicate.control s' = Communicate.Running /\
         Communicate.first_run s' = Communicate.first_run s /\
         Communicate.log s' = Communicate.log s ++ [sent payload Failure] /\
         forall t' payload' r',
           Communicate.i2c_payload cfg t' = Ok payload' ->
           Communicate.log (Communicate.step cfg s' (Communicate.Tick t' r'))
             = Communicate.log s' ++ [sent payload' r'])).
Proof.
  intros cfg inputs i s sent.
  split; [apply run_faulted |].
  intro Hrun.
  destruct (run_running cfg inputs Hrun) as [Hlen Hfirst].
  split; [exact Hlen |].
  split; [| split].
  - intro Hf. fold s in Hrun.
    rewrite (step_running cfg s i Hrun) in Hf.
    destruct i as [t r |]; [| discriminate].
    destruct (Communicate.i2c_payload cfg t) as [payload | e] eqn:Hp;
      [| discriminate].
    unfold Communicate.transact in Hf.
    destruct r; [destruct (Communicate.first_run s); discriminate |].
    destruct (Communicate.first_run s) eqn:Hfr; [| discriminate].
    split.
    + destruct inputs as [| i0 inputs']; [reflexivity |].
      assert (Hne : i0 :: inputs' <> []) by discriminate.
      specialize (Hfirst Hne). fold s in Hfirst. congruence.
    + exists t, payload. split; [reflexivity | exact Hp].
  - intros t payload Hp Hnil. subst inputs.
    unfold s. change (Communicate.run cfg []) with (Communicate.initial cfg).
    rewrite step_running by reflexivity. rewrite Hp. reflexivity.
  - intros t payload Hp Hne s'.
    specialize (Hfirst Hne). fold s in Hfirst, Hrun.
    assert (Hs' : s' = {| Communicate.control := Communicate.Running;
                          Communicate.first_run := Communicate.first_run s;
                          Communicate.log :=
                            Communicate.log s ++ [sent payload Failure] |}).
    { unfold s'. rewrite (step_running cfg s _ Hrun), Hp.
      unfold Communicate.transact. rewrite Hfirst. reflexivity. }
    rewrite Hs'. simpl. repeat split.
    intros t' payload' r' Hp'.
    rewrite step_running by reflexivity. rewrite Hp'.
    unfold Communicate.transact. simpl. rewrite Hfirst.
    destruct r'; reflexivity.
Qed.

Lemma fault_only_on_first_tick_witness :
  Communicate.control
    (Communicate.step Communicate.source_config
       (Communicate.run Communicate.source_config
          [Communicate.Tick 0 Success])
       (Communicate.Tick 1 Failure)) = Communicate.Running.
Proof.
  assert (Hne : Communicate.v_ref Communicate.source_config <> 0%R)
    by (rewrite source_v_ref; lra).
  destruct (i2c_payload_total Communicate.source_config 0 Hne) as [p0 Hp0].
  destruct (i2c_payload_total Communicate.source_config 1 Hne) as [p1 Hp1].
  assert (Hrun : Communicate.control
                   (Communicate.run Communicate.source_config
                      [Communicate.Tick 0 Success]) = Communicate.Running).
  { unfold Communicate.run, Communicate.run_from. simpl.
    rewrite step_running by reflexivity. rewrite Hp0. reflexivity. }
  destruct (fault_only_on_first_tick Communicate.source_config
              [Communicate.Tick 0 Success] Communicate.CtrlC)
    as (_ & Hrunning).
  destruct (Hrunning Hrun) as (_ & _ & _ & Hlater).
  apply (Hlater 1%R p1 Hp1). discriminate.
Defined.

(** C3. Whatever the loop did before and whatever the settings, the
    [finally] block of [communicate.py] builds an 8-byte payload in which
    every channel's LSB and the low nibble of its MSB are zero (digital
    value 0) while bit 7 and bit 4 of each MSB carry the reference and gain
    settings, and it issues exactly one transaction, with this payload. *)
Theorem shutdown_payload_zero :
  forall (cfg : Communicate.config) (referenceMode gainMode : bool)
         (inputs : list Communicate.input) (shutdown : write_result),
    Communicate.VREF_MODE cfg = Z.b2z referenceMode ->
    Communicate.GAIN_MODE cfg = Z.b2z gainMode ->
    Communicate.control (Communicate.run cfg inputs) <> Communicate.Running ->
    let msb := Communicate.zero_msb cfg in
    let payload := Communicate.zero_volt_payload cfg in
    payload = [msb; 0; msb; 0; msb; 0; msb; 0] /\
    length payload = 8%nat /\
    Z.land msb 0xF = 0 /\
    Spec.decode msb 0 = (referenceMode, gainMode, 0) /\
    msb = Spec.msb referenceMode gainMode 0 /\
    writes (Communicate.finally cfg true shutdown) =
      [Write (Communicate.MCP4728_ADDRESS cfg) Communicate.SEQ_WRITE_COMMAND
             payload shutdown] /\
    writes (Communicate.trace (Communicate.main cfg true inputs shutdown)) =
      writes (Communicate.log (Communicate.run cfg inputs)) ++
      [Write (Communicate.MCP4728_ADDRESS cfg) Communicate.SEQ_WRITE_COMMAND
             payload shutdown].
Proof.
  intros cfg referenceMode gainMode inputs shutdown Hv Hg Hexit msb payload.
  assert (Hmsb : msb = Spec.msb referenceMode gainMode 0).
  { unfold msb. rewrite zero_msb_data_msb. apply data_msb_spec; assumption. }
  assert (Hfin : writes (Communicate.finally cfg true shutdown) =
                 [Write (Communicate.MCP4728_ADDRESS cfg)
                        Communicate.SEQ_WRITE_COMMAND payload shutdown])
    by (destruct shutdown; reflexivity).
  repeat split.
  - rewrite Hmsb. destruct referenceMode, gainMode; reflexivity.
  - rewrite Hmsb. destruct referenceMode, gainMode; reflexivity.
  - exact Hmsb.
  - exact Hfin.
  - rewrite (main_exit cfg inputs shutdown Hexit).
    cbn [Communicate.trace].
    rewrite !writes_app, handlers_no_write, Hfin. reflexivity.
Qed.

Lemma shutdown_payload_zero_witness :
  writes (Communicate.trace
            (Communicate.main Communicate.source_config true
               [Communicate.CtrlC] Failure)) =
    [Write 0x60 0x40 [0; 0; 0; 0; 0; 0; 0; 0] Failure].
Proof.
  apply (shutdown_payload_zero Communicate.source_config false false
           [Communicate.CtrlC] Failure).
  - reflexivity.
  - reflexivity.
  - discriminate.
Defined.

(** C6. On every way out of the loop of [communicate.py] (the fault exit
    after a failed first transaction, Ctrl-C, or any other exception), the
    zeroing transaction is attempted once; when it fails, the failure is
    printed and nothing else changes: the bus is closed right after, once,
    and the process exits.  When no bus handle was acquired there is none
    to release. *)
Theorem shutdown_failure_not_escalated :
  forall (cfg : Communicate.config) (inputs : list Communicate.input)
         (shutdown : write_result),
    Communicate.control (Communicate.run cfg inputs) <> Communicate.Running ->
    let o := Communicate.main cfg true inputs shutdown in
    let zeroing :=
      Write (Communicate.MCP4728_ADDRESS cfg) Communicate.SEQ_WRITE_COMMAND
            (Communicate.zero_volt_payload cfg) shutdown in
    Communicate.exited o = true /\
    (exists before,
        Communicate.trace o =
          before ++ [Print MsgZeroing; zeroing] ++
          match shutdown with
          | Success => []
          | Failure => [Print MsgZeroingFailed]
          end ++ [Close; Print MsgBusClosed] /\
        filter is_close before = []) /\
    filter is_close (Communicate.trace o) = [Close] /\
    Communicate.main cfg false inputs shutdown =
      {| Communicate.exited := true;
         Communicate.trace := [Print MsgUnexpected] |}.
Proof.
  intros cfg inputs shutdown Hexit o zeroing.
  unfold o. rewrite (main_exit cfg inputs shutdown Hexit).
  cbn [Communicate.trace Communicate.exited]. rewrite finally_eq.
  fold zeroing.
  split; [reflexivity |].
  split; [| split; [| reflexivity]].
  - exists (Communicate.log (Communicate.run cfg inputs) ++
            Communicate.handlers
              (Communicate.control (Communicate.run cfg inputs))).
    split.
    + rewrite <- app_assoc. reflexivity.
    + rewrite filter_app, run_no_close, handlers_no_close. reflexivity.
  - rewrite !filter_app, run_no_close, handlers_no_close.
    destruct shutdown; reflexivity.
Qed.

Lemma shutdown_failure_not_escalated_witness :
  filter is_close
    (Communicate.trace
       (Communicate.main Communicate.source_config true
          [Communicate.CtrlC] Failure)) = [Close].
Proof.
  apply (shutdown_failure_not_escalated Communicate.source_config
           [Communicate.CtrlC] Failure).
  discriminate.
Defined.

(** C9. The zero encoding of the [finally] block,
    [(VREF_MODE & 1) << 7 | (GAIN_MODE & 1) << 4] and [0], is byte for
    byte what the per-tick encoder packs for digital value 0 on the same
    settings, for each of the four channels. *)
Theorem shutdown_encoding_is_encoder_at_zero :
  forall (cfg : Communicate.config),
    Communicate.zero_msb cfg = Communicate.data_msb cfg 0 /\
    0 = Communicate.data_lsb 0 /\
    Communicate.zero_volt_payload cfg =
      flat_map (fun _ : channel =>
                  [Communicate.data_msb cfg 0; Communicate.data_lsb 0])
               Communicate.channel_order /\
    (forall voltage : R,
        Communicate.digital_value cfg voltage = Ok 0 ->
        Communicate.encode cfg voltage = Ok (Communicate.zero_msb cfg, 0)).
Proof.
  intro cfg.
  pose proof (zero_msb_data_msb cfg) as Hm.
  split; [exact Hm |]. split; [reflexivity |]. split.
  - rewrite zero_volt_payload_eq, Hm. reflexivity.
  - intros voltage Hd. unfold Communicate.encode. rewrite Hd. simpl.
    rewrite Hm. reflexivity.
Qed.

Lemma shutdown_encoding_is_encoder_at_zero_witness :
  Communicate.encode Communicate.source_config 0 =
    Ok (Communicate.zero_msb Communicate.source_config, 0).
Proof.
  apply (shutdown_encoding_is_encoder_at_zero Communicate.source_config).
  rewrite digital_value_spec by (rewrite source_v_ref; lra).
  rewrite source_v_ref. unfold Spec.digitalValue.
  rewrite spec_clamp_id by lra.
  replace (0 / 5 * 4095)%R with (IZR 0) by lra.
  rewrite ZfloorZ. reflexivity.
Defined.

(** ** Every event of a run *)

Section TraceFacts.

Lemma handlers_Forall (P : event -> Prop) (c : Communicate.status) :
  (forall m, P (Print m)) -> Forall P (Communicate.handlers c).
Proof.
  intro Hprint. destruct c; repeat constructor; apply Hprint.
Qed.

(** Whatever holds of the messages, of closing the bus, of the
    sequential write of a tick's payload and of the zeroing write holds
    of every event of a run of [communicate.py]. *)
Lemma main_trace_Forall (cfg : Communicate.config) (P : event -> Prop) :
  (forall m, P (Print m)) ->
  P Close ->
  (forall t payload r,
      Communicate.i2c_payload cfg t = Ok payload ->
      P (Write (Communicate.MCP4728_ADDRESS cfg)
               Communicate.SEQ_WRITE_COMMAND payload r)) ->
  (forall r,
      P (Write (Communicate.MCP4728_ADDRESS cfg)
               Communicate.SEQ_WRITE_COMMAND
               (Communicate.zero_volt_payload cfg) r)) ->
  forall bus_available inputs shutdown,
    Forall P (Communicate.trace
                (Communicate.main cfg bus_available inputs shutdown)).
Proof.
  intros Hprint Hclose Htick Hzero bus_available inputs shutdown.
  pose proof (run_log_Forall cfg P Hprint Htick inputs) as Hlog.
  assert (Hfin : Forall P (Communicate.finally cfg true shutdown)).
  { rewrite finally_eq. destruct shutdown; repeat constructor;
      try apply Hprint; try apply Hzero; exact Hclose. }
  destruct bus_available.
  - assert (Hexit : Communicate.control (Communicate.run cfg inputs)
                    <> Communicate.Running ->
                    Forall P (Communicate.trace
                                (Communicate.main cfg true inputs shutdown))).
    { intro Hne. rewrite (main_exit cfg inputs shutdown Hne).
      cbn [Communicate.trace].
      apply Forall_app; split; [exact Hlog |].
      apply Forall_app; split; [apply handlers_Forall, Hprint |].
      exact Hfin. }
    destruct (Communicate.control (Communicate.run cfg inputs)) eqn:Hc;
      try (apply Hexit; discriminate).
    rewrite (main_running cfg inputs shutdown Hc). exact Hlog.
  - simpl. repeat constructor. apply Hprint.
Qed.

Lemma command_byte_spec (ch : channel) :
  Zeroed.command_byte ch = Spec.single_write_command ch.
Proof. destruct ch; reflexivity. Qed.

(** The log of the channel loop of [zeroed.py]. *)
Lemma write_channels_Forall (cfg : Zeroed.config) (P : event -> Prop)
    (outcome_of : channel -> write_result) :
  (forall m, P (Print m)) ->
  (forall ch r,
      P (Write (Zeroed.MCP4728_ADDRESS cfg) (Zeroed.command_byte ch)
               (Zeroed.i2c_payload cfg) r)) ->
  forall channels,
    Forall P (snd (Zeroed.write_channels cfg channels outcome_of)).
Proof.
  intros Hprint Hwrite. induction channels as [| ch rest IH].
  - constructor.
  - simpl. destruct (outcome_of ch).
    + destruct (Zeroed.write_channels cfg rest outcome_of) as [ok log].
      simpl in *. repeat constructor; auto.
    + simpl. repeat constructor; auto.
Qed.

Lemma zeroed_main_Forall (cfg : Zeroed.config) (P : event -> Prop) :
  (forall m, P (Print m)) ->
  P Close ->
  (forall ch r,
      P (Write (Zeroed.MCP4728_ADDRESS cfg) (Zeroed.command_byte ch)
               (Zeroed.i2c_payload cfg) r)) ->
  forall bus_available outcome_of,
    Forall P (Zeroed.main cfg bus_available outcome_of).
Proof.
  intros Hprint Hclose Hwrite bus_available outcome_of.
  unfold Zeroed.main. destruct bus_available.
  - pose proof (write_channels_Forall cfg P outcome_of Hprint Hwrite
                  [A; B; C; D]) as Hlog.
    destruct (Zeroed.write_channels cfg [A; B; C; D] outcome_of)
      as [ok log].
    simpl in Hlog.
    repeat (apply Forall_app; split); try assumption.
    + repeat constructor. apply Hprint.
    + destruct ok; repeat constructor. apply Hprint.
    + repeat constructor; [exact Hclose | apply Hprint].
  - repeat constructor. apply Hprint.
Qed.

End TraceFacts.

(** C7. Every tick of [communicate.py] that builds its payload issues
    its transaction with the sequential-write command byte 0b01000000,
    and so does the [finally] block; every transaction of a run goes to the
    configured address with this command byte.  In [zeroed.py] the
    transactions of a run are those of an initial part of A, B, C, D, in
    this order, each to the configured address with the command byte
    0b01011CC0 of the very channel it writes, CC being 00, 01, 10, 11 for
    A, B, C, D (0x58, 0x5A, 0x5C, 0x5E), and all four when every
    transaction succeeds.  The address in both source files is 0x60. *)
Theorem command_bytes :
  forall (cfg : Communicate.config) (zcfg : Zeroed.config)
         (bus_available : bool) (inputs : list Communicate.input)
         (shutdown : write_result) (outcome_of : channel -> write_result),
    Communicate.SEQ_WRITE_COMMAND = Spec.sequential_write_command /\
    (forall s t r payload,
        Communicate.control s = Communicate.Running ->
        Communicate.i2c_payload cfg t = Ok payload ->
        writes (Communicate.log (Communicate.step cfg s
                                   (Communicate.Tick t r))) =
          writes (Communicate.log s) ++
          [Write (Communicate.MCP4728_ADDRESS cfg)
                 Spec.sequential_write_command payload r]) /\
    writes (Communicate.finally cfg true shutdown) =
      [Write (Communicate.MCP4728_ADDRESS cfg)
             Spec.sequential_write_command
             (Communicate.zero_volt_payload cfg) shutdown] /\
    Forall (sent_with (Communicate.MCP4728_ADDRESS cfg)
                      Spec.sequential_write_command)
           (Communicate.trace
              (Communicate.main cfg bus_available inputs shutdown)) /\
    (forall ch, Zeroed.command_byte ch = Spec.single_write_command ch) /\
    (forall ch,
        Zeroed.command_byte ch = 0x58 + 2 * Zeroed.CHANNEL_MAP ch /\
        Z.testbit (Zeroed.command_byte ch) 2 = fst (Spec.selector ch) /\
        Z.testbit (Zeroed.command_byte ch) 1 = snd (Spec.selector ch)) /\
    map Zeroed.command_byte [A; B; C; D] = [0x58; 0x5A; 0x5C; 0x5E] /\
    (exists written rest,
        written <> [] /\
        written ++ rest = [A; B; C; D] /\
        writes (Zeroed.main zcfg true outcome_of) =
          map (fun ch =>
                 Write (Zeroed.MCP4728_ADDRESS zcfg)
                       (Spec.single_write_command ch)
                       (Zeroed.i2c_payload zcfg) (outcome_of ch))
              written /\
        ((forall ch, outcome_of ch = Success) -> rest = [])) /\
    Forall (single_write_to (Zeroed.MCP4728_ADDRESS zcfg))
           (Zeroed.main zcfg bus_available outcome_of) /\
    Communicate.MCP4728_ADDRESS Communicate.source_config = 0x60 /\
    Zeroed.MCP4728_ADDRESS Zeroed.source_config = 0x60.
Proof.
  intros cfg zcfg bus_available inputs shutdown outcome_of.
  split; [reflexivity |].
  split.
  { intros s t r payload Hs Hp.
    rewrite (step_running cfg s _ Hs), Hp.
    unfold Communicate.transact.
    destruct r, (Communicate.first_run s); simpl;
      rewrite ?writes_app; simpl; rewrite ?app_nil_r; reflexivity. }
  split; [destruct shutdown; reflexivity |].
  split.
  { apply main_trace_Forall; simpl; auto. }
  split; [apply command_byte_spec |].
  split; [intro ch; destruct ch; repeat split |].
  split; [reflexivity |].
  split.
  { unfold Zeroed.main. simpl.
    destruct (outcome_of A) eqn:HA;
      [| exists [A], [B; C; D]; simpl; rewrite HA;
         repeat split; try discriminate;
         intro H; rewrite (H A) in HA; discriminate].
    destruct (outcome_of B) eqn:HB;
      [| exists [A; B], [C; D]; simpl; rewrite HA, HB;
         repeat split; try discriminate;
         intro H; rewrite (H B) in HB; discriminate].
    destruct (outcome_of C) eqn:HC;
      [| exists [A; B; C], [D]; simpl; rewrite HA, HB, HC;
         repeat split; try discriminate;
         intro H; rewrite (H C) in HC; discriminate].
    exists [A; B; C; D], []. simpl. rewrite HA, HB, HC.
    destruct (outcome_of D) eqn:HD; repeat split; discriminate. }
  split; [| split; reflexivity].
  apply zeroed_main_Forall; simpl; auto.
  intros ch _. split; [reflexivity |].
  exists ch. apply command_byte_spec.
Qed.

Lemma command_bytes_witness :
  writes (Communicate.log
            (Communicate.step Communicate.source_config
               (Communicate.initial Communicate.source_config)
               (Communicate.Tick 0 Success))) <> [].
Proof.
  assert (Hne : Communicate.v_ref Communicate.source_config <> 0%R)
    by (rewrite source_v_ref; lra).
  destruct (i2c_payload_total Communicate.source_config 0 Hne) as [p0 Hp0].
  destruct (command_bytes Communicate.source_config Zeroed.source_config
              true [] Success (fun _ => Success)) as (_ & Htick & _).
  rewrite (Htick (Communicate.initial Communicate.source_config) 0%R
             Success p0 eq_refl Hp0).
  destruct (writes (Communicate.log
                      (Communicate.initial Communicate.source_config)));
    discriminate.
Defined.

(** C8. A tick of [communicate.py] that builds its payload visits A, B, C,
    D in this order and appends the two bytes of each, so the payload has
    exactly 8 bytes, and hands it to one transaction; a tick whose payload
    is not completed (the encoder raised) sends nothing; the payload is
    always completed when the reference voltage is not zero; and every
    transaction of a run carries 8 bytes. *)
Theorem payload_eight_bytes :
  forall (cfg : Communicate.config) (t : R),
    (forall payload,
        Communicate.i2c_payload cfg t = Ok payload ->
        (exists mA lA mB lB mC lC mD lD,
            Communicate.encode cfg (Communicate.voltage cfg A t)
              = Ok (mA, lA) /\
            Communicate.encode cfg (Communicate.voltage cfg B t)
              = Ok (mB, lB) /\
            Communicate.encode cfg (Communicate.voltage cfg C t)
              = Ok (mC, lC) /\
            Communicate.encode cfg (Communicate.voltage cfg D t)
              = Ok (mD, lD) /\
            payload = [mA; lA; mB; lB; mC; lC; mD; lD]) /\
        length payload = 8%nat /\
        Forall is_byte payload /\
        forall s r,
          Communicate.control s = Communicate.Running ->
          writes (Communicate.log (Communicate.step cfg s
                                     (Communicate.Tick t r))) =
            writes (Communicate.log s) ++
            [Write (Communicate.MCP4728_ADDRESS cfg)
                   Communicate.SEQ_WRITE_COMMAND payload r]) /\
    (forall e s r,
        Communicate.i2c_payload cfg t = Raise e ->
        Communicate.log (Communicate.step cfg s (Communicate.Tick t r)) =
          Communicate.log s) /\
    (Communicate.v_ref cfg <> 0%R ->
     exists payload, Communicate.i2c_payload cfg t = Ok payload) /\
    (forall bus_available inputs shutdown,
        Forall (payload_has 8)
               (Communicate.trace
                  (Communicate.main cfg bus_available inputs shutdown))).
Proof.
  intros cfg t. split; [| split; [| split]].
  - intros payload Hp. split; [| split; [| split]].
    + destruct (i2c_payload_inv cfg t payload Hp)
        as (dA & dB & dC & dD & HA & HB & HC & HD & ->).
      exists (Communicate.data_msb cfg dA), (Communicate.data_lsb dA),
             (Communicate.data_msb cfg dB), (Communicate.data_lsb dB),
             (Communicate.data_msb cfg dC), (Communicate.data_lsb dC),
             (Communicate.data_msb cfg dD), (Communicate.data_lsb dD).
      unfold Communicate.encode. rewrite HA, HB, HC, HD.
      repeat split.
    + apply (i2c_payload_length cfg t), Hp.
    + apply (i2c_payload_bytes cfg t), Hp.
    + intros s r Hs. rewrite (step_running cfg s _ Hs), Hp.
      unfold Communicate.transact.
      destruct r, (Communicate.first_run s); simpl;
        rewrite ?writes_app; simpl; rewrite ?app_nil_r; reflexivity.
  - intros e s r Hp. unfold Communicate.step. rewrite Hp.
    destruct (Communicate.control s); reflexivity.
  - apply i2c_payload_total.
  - apply main_trace_Forall; simpl; auto.
    intros t' payload r Hp. apply (i2c_payload_length cfg t'), Hp.
Qed.

Lemma payload_eight_bytes_witness :
  exists payload,
    Communicate.i2c_payload Communicate.source_config 1 = Ok payload /\
    length payload = 8%nat.
Proof.
  assert (Hne : Communicate.v_ref Communicate.source_config <> 0%R)
    by (rewrite source_v_ref; lra).
  destruct (payload_eight_bytes Communicate.source_config 1)
    as (Hbuilt & _ & Htotal & _).
  destruct (Htotal Hne) as [payload Hp].
  exists payload. split; [exact Hp |].
  apply (Hbuilt payload Hp).
Defined.

(** ** The channel loop of [zeroed.py] *)

Section ZeroedFacts.

Variable cfg : Zeroed.config.
Variable outcome_of : channel -> write_result.

(** The loop up to its first failing channel: the channels before it
    are written and reported, the failing one is attempted and its
    error reported, and the loop is left. *)
Lemma write_channels_break (before after : list channel) (k : channel) :
  (forall c, In c before -> outcome_of c = Success) ->
  outcome_of k = Failure ->
  Zeroed.write_channels cfg (before ++ k :: after) outcome_of =
    (false,
     flat_map (fun c => [channel_write cfg outcome_of c; Print (MsgChannelSet c)]) before
     ++ [channel_write cfg outcome_of k; Print (MsgChannelError k);
         Print MsgCheckConnections]).
Proof.
  intros Hbefore Hk. unfold channel_write.
  induction before as [| c before IH].
  - simpl. rewrite Hk. reflexivity.
  - simpl.
    rewrite IH by (intros c' Hc'; apply Hbefore; right; exact Hc').
    rewrite (Hbefore c) by (left; reflexivity). reflexivity.
Qed.

Lemma writes_reported (channels : list channel) :
  writes (flat_map (fun c => [channel_write cfg outcome_of c; Print (MsgChannelSet c)])
                   channels) = map (channel_write cfg outcome_of) channels.
Proof.
  induction channels as [| c channels IH]; [reflexivity |].
  simpl. f_equal. exact IH.
Qed.

End ZeroedFacts.

(** C10. In [zeroed.py], when the write for channel [k] is the first to
    fail (the channels being visited in the order A, B, C, D), the
    transactions of the run are those of the channels up to and including
    [k], no transaction is issued for a later channel, and the registers
    of the later channels are as they were, whatever a transaction does to
    the register it addresses. *)
Theorem zeroing_stops_at_first_failure :
  forall (cfg : Zeroed.config) (outcome_of : channel -> write_result)
         (before after : list channel) (k : channel)
         (register : Type)
         (effect : write_result -> list Z -> register -> register)
         (regs : channel -> register),
    [A; B; C; D] = before ++ k :: after ->
    (forall c, In c before -> outcome_of c = Success) ->
    outcome_of k = Failure ->
    let log := Zeroed.main cfg true outcome_of in
    writes log = map (channel_write cfg outcome_of) (before ++ [k]) /\
    (forall c, In c after ->
       forall address data r,
         ~ In (Write address (Zeroed.command_byte c) data r) log) /\
    (forall c, In c after ->
       device_run register effect regs log c = regs c).
Proof.
  intros cfg outcome_of before after k register effect regs Hsplit Hbefore
    Hk log.
  assert (Hlog : log =
            [Print MsgBusOpened] ++
            (flat_map (fun c => [channel_write cfg outcome_of c;
                                 Print (MsgChannelSet c)]) before
             ++ [channel_write cfg outcome_of k; Print (MsgChannelError k);
                 Print MsgCheckConnections])
            ++ [] ++ [Close; Print MsgBusClosed]).
  { unfold log, Zeroed.main. rewrite Hsplit.
    rewrite (write_channels_break cfg outcome_of before after k Hbefore Hk).
    reflexivity. }
  split.
  - rewrite Hlog, !writes_app, writes_reported, map_app.
    unfold channel_write. simpl. rewrite app_nil_r. reflexivity.
  - assert (Hcases :
        (before = [] /\ k = A /\ after = [B; C; D]) \/
        (before = [A] /\ k = B /\ after = [C; D]) \/
        (before = [A; B] /\ k = C /\ after = [D]) \/
        (before = [A; B; C] /\ k = D /\ after = [])).
    { destruct before as [| b1 [| b2 [| b3 [| b4 before']]]];
        simpl in Hsplit; injection Hsplit as <-; subst; auto 6.
      destruct before'; discriminate. }
    clear Hsplit Hbefore.
    destruct Hcases as [(-> & -> & ->) | [(-> & -> & ->) |
                       [(-> & -> & ->) | (-> & -> & ->)]]];
      rewrite Hlog; unfold channel_write; rewrite ?Hk; clear Hlog log; split;
      intros c Hc; simpl in Hc;
      repeat (destruct Hc as [<- | Hc]); try contradiction;
      try reflexivity;
      intros address data r Hin; simpl in Hin;
      repeat (destruct Hin as [Heq | Hin]); try contradiction;
      try discriminate.
Qed.

Lemma zeroing_stops_at_first_failure_witness :
  writes (Zeroed.main Zeroed.source_config true
            (fun c => match c with B => Failure | _ => Success end)) =
    [Write 0x60 0x58 [0; 0] Success; Write 0x60 0x5A [0; 0] Failure].
Proof.
  apply (zeroing_stops_at_first_failure Zeroed.source_config
           (fun c => match c with B => Failure | _ => Success end)
           [A] [C; D] B unit (fun _ _ u => u) (fun _ => tt)).
  - reflexivity.
  - intros c [<- | []]. reflexivity.
  - reflexivity.
Defined.

(** ** Further properties of the encoder of [communicate.py] *)

Section EncoderFacts.

Import Communicate.

Variable cfg : config.

Local Open Scope R_scope.

(** The reference voltage is the supply voltage, 2.048 or 4.096. *)
Lemma v_ref_cases :
  (VREF_MODE cfg = 0%Z /\ v_ref cfg = VDD cfg) \/
  (VREF_MODE cfg <> 0%Z /\ (v_ref cfg = 2.048 \/ v_ref cfg = 4.096)).
Proof.
  unfold v_ref. destruct (Z.eqb_spec (VREF_MODE cfg) 0) as [H0 | Hne].
  - left. split; [exact H0 | reflexivity].
  - right. split; [exact Hne |].
    destruct (GAIN_MODE cfg =? 1)%Z; [right | left]; lra.
Qed.

Lemma v_ref_zero_iff :
  v_ref cfg = 0 <-> (VREF_MODE cfg = 0%Z /\ VDD cfg = 0).
Proof.
  destruct v_ref_cases as [[H0 Hv] | [Hne [Hv | Hv]]]; rewrite Hv; split;
    try (intros [? ?]); try intro; try contradiction; try lra; auto.
Qed.

Lemma clamp_range (v : R) : 0 < v_ref cfg -> 0 <= clamp cfg v <= v_ref cfg.
Proof.
  intro Hpos. rewrite clamp_spec. apply spec_clamp_range, Hpos.
Qed.

Lemma clamp_id (v : R) : 0 <= v <= v_ref cfg -> clamp cfg v = v.
Proof. intro H. rewrite clamp_spec. apply spec_clamp_id, H. Qed.

Lemma clamp_monotone (v1 v2 : R) : v1 <= v2 -> clamp cfg v1 <= clamp cfg v2.
Proof.
  intro H. unfold clamp.
  destruct (Rgt_dec v1 (v_ref cfg)); destruct (Rgt_dec v2 (v_ref cfg));
    repeat destruct (Rlt_dec _ 0); lra.
Qed.

(** With a negative reference every voltage is clamped to zero. *)
Lemma clamp_negative_reference (v : R) : v_ref cfg < 0 -> clamp cfg v = 0.
Proof.
  intro H. unfold clamp.
  destruct (Rgt_dec v (v_ref cfg)); destruct (Rlt_dec _ 0); lra.
Qed.

Lemma digital_value_eq (v : R) :
  v_ref cfg <> 0 ->
  digital_value cfg v = Ok (int (clamp cfg v / v_ref cfg * 4095)).
Proof.
  intro Hne. unfold digital_value, float_div.
  destruct (Req_dec_T (v_ref cfg) 0) as [H0 | _]; [contradiction |].
  reflexivity.
Qed.

Lemma digital_value_floor (v : R) :
  0 < v_ref cfg ->
  digital_value cfg v = Ok (Zfloor (clamp cfg v / v_ref cfg * 4095)).
Proof.
  intro Hpos. rewrite digital_value_eq by lra. f_equal.
  apply int_nonneg. apply ratio_range; [exact Hpos | apply clamp_range, Hpos].
Qed.

Lemma digital_value_raises (v : R) :
  v_ref cfg = 0 -> digital_value cfg v = Raise ZeroDivisionError.
Proof.
  intro H0. unfold digital_value, float_div.
  destruct (Req_dec_T (v_ref cfg) 0) as [_ | Hne]; [| contradiction].
  reflexivity.
Qed.

(** Whenever the encoder returns, the digital value has 12 bits. *)
Lemma digital_value_12bit (v : R) (d : Z) :
  digital_value cfg v = Ok d -> (0 <= d <= 4095)%Z.
Proof.
  intro Hd.
  destruct (Req_dec_T (v_ref cfg) 0) as [H0 | Hne].
  - rewrite digital_value_raises in Hd by exact H0. discriminate.
  - destruct (Rlt_dec 0 (v_ref cfg)) as [Hpos | Hneg].
    + rewrite digital_value_floor in Hd by exact Hpos.
      injection Hd as <-. apply Zfloor_range.
      apply ratio_range; [exact Hpos | apply clamp_range, Hpos].
    + rewrite digital_value_eq in Hd by exact Hne.
      rewrite clamp_negative_reference in Hd by lra.
      injection Hd as <-.
      replace (0 / v_ref cfg * 4095) with (IZR 0)
        by (unfold Rdiv; rewrite Rmult_0_l; lra).
      rewrite int_IZR. lia.
Qed.

End EncoderFacts.

(** X1. The encoder of [communicate.py] raises exactly when the supply
    voltage is the reference and is zero, and then it is a
    [ZeroDivisionError]; in every other configuration, whatever the integer
    settings and the sign of the supply, it returns a digital value of 12
    bits and the two bytes packed from it. *)
Theorem encoder_raises_iff_zero_supply :
  forall (cfg : Communicate.config) (voltage : R),
    (Communicate.encode cfg voltage = Raise ZeroDivisionError <->
     Communicate.VREF_MODE cfg = 0 /\ Communicate.VDD cfg = 0%R) /\
    ((forall e, Communicate.encode cfg voltage <> Raise e) <->
     exists d,
       0 <= d <= 4095 /\
       Communicate.digital_value cfg voltage = Ok d /\
       Communicate.encode cfg voltage =
         Ok (Communicate.data_msb cfg d, Communicate.data_lsb d)) /\
    (forall e, Communicate.encode cfg voltage = Raise e ->
               e = ZeroDivisionError).
Proof.
  intros cfg voltage.
  pose proof (v_ref_zero_iff cfg) as Hzero.
  destruct (Req_dec_T (Communicate.v_ref cfg) 0) as [H0 | Hne].
  - assert (Hr : Communicate.encode cfg voltage = Raise ZeroDivisionError).
    { unfold Communicate.encode.
      rewrite digital_value_raises by exact H0. reflexivity. }
    rewrite Hr. split; [| split].
    + split; [intros _; apply Hzero, H0 | reflexivity].
    + split.
      * intro Hno. exfalso. apply (Hno ZeroDivisionError). reflexivity.
      * intros (d & _ & _ & He). discriminate.
    + intros e He. congruence.
  - destruct (encode_total cfg voltage Hne) as (d & Hd & He).
    rewrite He. split; [| split].
    + split; [discriminate |].
      intro H. exfalso. apply Hne, Hzero, H.
    + split; [| intros _ e; discriminate].
      intros _. exists d. split; [| split; [exact Hd | reflexivity]].
      apply (digital_value_12bit cfg voltage), Hd.
    + intros e; discriminate.
Qed.

(** X2. With the supply as reference and a negative supply voltage, every
    voltage is encoded as digital value 0. *)
Theorem negative_supply_encodes_zero :
  forall (cfg : Communicate.config) (voltage : R),
    Communicate.VREF_MODE cfg = 0 ->
    (Communicate.VDD cfg < 0)%R ->
    Communicate.digital_value cfg voltage = Ok 0 /\
    Communicate.encode cfg voltage = Ok (Communicate.zero_msb cfg, 0).
Proof.
  intros cfg voltage Hmode Hneg.
  assert (Hv : Communicate.v_ref cfg = Communicate.VDD cfg)
    by (unfold Communicate.v_ref; rewrite Hmode; reflexivity).
  assert (Hd : Communicate.digital_value cfg voltage = Ok 0).
  { rewrite digital_value_eq by (rewrite Hv; lra).
    rewrite clamp_negative_reference by (rewrite Hv; exact Hneg).
    replace (0 / Communicate.v_ref cfg * 4095)%R with (IZR 0)
      by (unfold Rdiv; rewrite Rmult_0_l; lra).
    rewrite int_IZR. reflexivity. }
  split; [exact Hd |].
  unfold Communicate.encode. rewrite Hd. simpl.
  rewrite zero_msb_data_msb. reflexivity.
Qed.

Lemma negative_supply_encodes_zero_witness :
  Communicate.digital_value
    {| Communicate.MCP4728_ADDRESS := 0x60;
       Communicate.CHANNEL_FREQUENCIES := fun _ => 0.01%R;
       Communicate.VDD := (-5)%R;
       Communicate.VREF_MODE := 0;
       Communicate.GAIN_MODE := 0 |} 3.3 = Ok 0.
Proof.
  apply negative_supply_encodes_zero.
  - reflexivity.
  - simpl. lra.
Defined.

(** X3. For a positive reference voltage the digital value grows with the
    voltage: a larger voltage never gets a smaller code. *)
Theorem digital_value_monotone :
  forall (cfg : Communicate.config) (v1 v2 : R) (d1 d2 : Z),
    (0 < Communicate.v_ref cfg)%R ->
    (v1 <= v2)%R ->
    Communicate.digital_value cfg v1 = Ok d1 ->
    Communicate.digital_value cfg v2 = Ok d2 ->
    d1 <= d2.
Proof.
  intros cfg v1 v2 d1 d2 Hpos Hle H1 H2.
  rewrite digital_value_floor in H1, H2 by exact Hpos.
  injection H1 as <-. injection H2 as <-.
  apply Zfloor_le.
  apply Rmult_le_compat_r; [lra |].
  apply Rmult_le_compat_r.
  - apply Rlt_le, Rinv_0_lt_compat, Hpos.
  - apply clamp_monotone, Hle.
Qed.

Lemma digital_value_monotone_witness :
  Zfloor (Communicate.clamp Communicate.source_config 1.0 /
          Communicate.v_ref Communicate.source_config * 4095) <=
  Zfloor (Communicate.clamp Communicate.source_config 3.3 /
          Communicate.v_ref Communicate.source_config * 4095).
Proof.
  assert (Hpos : (0 < Communicate.v_ref Communicate.source_config)%R)
    by (rewrite source_v_ref; lra).
  apply (digital_value_monotone Communicate.source_config 1.0 3.3).
  - exact Hpos.
  - lra.
  - apply digital_value_floor, Hpos.
  - apply digital_value_floor, Hpos.
Defined.

(** X4. For a positive reference voltage the encoder saturates at both
    ends: the full-scale code 4095 is produced exactly by the voltages at
    or above the reference, and every voltage at or below zero gets the
    code 0. *)
Theorem full_scale_exactly_when_saturated :
  forall (cfg : Communicate.config) (voltage : R) (d : Z),
    (0 < Communicate.v_ref cfg)%R ->
    Communicate.digital_value cfg voltage = Ok d ->
    (d = 4095 <-> (Communicate.v_ref cfg <= voltage)%R) /\
    ((voltage <= 0)%R -> d = 0).
Proof.
  intros cfg voltage d Hpos Hd.
  rewrite digital_value_floor in Hd by exact Hpos. injection Hd as <-.
  set (r := Communicate.v_ref cfg) in *.
  set (c := Communicate.clamp cfg voltage).
  pose proof (clamp_range cfg voltage Hpos) as Hc. fold r c in Hc.
  pose proof (Zfloor_bound (c / r * 4095)) as [Hlo Hhi].
  assert (Hx : (c = c / r * r)%R) by (field; lra).
  assert (Hclamp : ((voltage <= 0 /\ c = 0) \/
                    (0 <= voltage <= r /\ c = voltage) \/
                    (r <= voltage /\ c = r))%R).
  { unfold c, Communicate.clamp. fold r.
    destruct (Rgt_dec voltage r); destruct (Rlt_dec _ 0); lra. }
  split; [split |].
  - intro H. rewrite H in Hlo.
    assert (1 <= c / r)%R by lra.
    assert (r <= c)%R by nra. lra.
  - intro H. assert (Hcr : c = r) by lra.
    rewrite Hcr. replace (r / r * 4095)%R with (IZR 4095) by (field; lra).
    apply ZfloorZ.
  - intro H. assert (Hc0 : c = 0%R) by lra.
    rewrite Hc0. replace (0 / r * 4095)%R with (IZR 0)
      by (unfold Rdiv; rewrite Rmult_0_l; lra).
    apply ZfloorZ.
Qed.

Lemma full_scale_exactly_when_saturated_witness :
  Zfloor (Communicate.clamp Communicate.source_config 7 /
          Communicate.v_ref Communicate.source_config * 4095) = 4095.
Proof.
  assert (Hpos : (0 < Communicate.v_ref Communicate.source_config)%R)
    by (rewrite source_v_ref; lra).
  apply (full_scale_exactly_when_saturated Communicate.source_config 7 _ Hpos
           (digital_value_floor Communicate.source_config 7 Hpos)).
  rewrite source_v_ref. lra.
Defined.

(** X6. With the supply as reference (and a positive supply voltage) the
    sample of a channel always lies within [[0, v_ref]], so the two
    clamping statements never change it, whatever the frequency, the time
    and the gain setting: the digital value is that of the sample
    itself, [int (sample / VDD * 4095)]. *)
Theorem supply_reference_never_clamps :
  forall (cfg : Communicate.config) (ch : channel) (t : R),
    Communicate.VREF_MODE cfg = 0 ->
    (0 < Communicate.VDD cfg)%R ->
    let sample := Communicate.voltage cfg ch t in
    Communicate.v_ref cfg = Communicate.VDD cfg /\
    (0 <= sample <= Communicate.v_ref cfg)%R /\
    Communicate.clamp cfg sample = sample /\
    Communicate.digital_value cfg sample =
      Ok (int (sample / Communicate.VDD cfg * 4095)).
Proof.
  intros cfg ch t Hmode Hvdd sample.
  assert (Hv : Communicate.v_ref cfg = Communicate.VDD cfg)
    by (unfold Communicate.v_ref; rewrite Hmode; reflexivity).
  pose proof (SIN_bound
                (2 * PI * Communicate.CHANNEL_FREQUENCIES cfg ch * t))
    as [Hlo Hhi].
  assert (Hrange : (0 <= sample <= Communicate.v_ref cfg)%R).
  { rewrite Hv. unfold sample, Communicate.voltage. split; nra. }
  split; [exact Hv |]. split; [exact Hrange |].
  split; [apply clamp_id, Hrange |].
  rewrite digital_value_eq by (rewrite Hv; lra).
  rewrite clamp_id by exact Hrange. rewrite Hv. reflexivity.
Qed.

Lemma supply_reference_never_clamps_witness :
  Communicate.clamp Communicate.source_config
    (Communicate.voltage Communicate.source_config A 25) =
  Communicate.voltage Communicate.source_config A 25.
Proof.
  apply (supply_reference_never_clamps Communicate.source_config A 25).
  - reflexivity.
  - simpl. lra.
Defined.

(** ** Whole runs of the loop of [communicate.py] *)

Section RunFacts.

Import Communicate.

Variable cfg : config.

Lemma run_cons (i : input) (inputs : list input) :
  run cfg (i :: inputs) = run_from cfg (step cfg (initial cfg) i) inputs.
Proof. reflexivity. Qed.

Lemma run_from_snoc (s : state) (inputs : list input) (i : input) :
  run_from cfg s (inputs ++ [i]) = step cfg (run_from cfg s inputs) i.
Proof. unfold run_from. rewrite fold_left_app. reflexivity. Qed.

(** Once [first_run] is cleared, ticks whose payload is built keep the
    loop running, one transaction each, whatever their outcome. *)
Lemma run_from_settled (s : state) (l : list (R * write_result)) :
  v_ref cfg <> 0%R ->
  control s = Running ->
  first_run s = false ->
  let s' := run_from cfg s (ticks l) in
  control s' = Running /\ first_run s' = false /\
  length (writes (log s')) = (length (writes (log s)) + length l)%nat /\
  forall m, occurrences m (log s') = occurrences m (log s).
Proof.
  intros Hne Hc Hf.
  induction l as [| [t r] l IH] using rev_ind; simpl.
  - repeat split; try assumption. lia.
  - unfold ticks in *. rewrite map_app. simpl. rewrite run_from_snoc.
    destruct IH as (IHc & IHf & IHlen & IHocc).
    set (s1 := run_from cfg s
                 (map (fun p => Tick (fst p) (snd p)) l)) in *.
    destruct (i2c_payload_total cfg t Hne) as [payload Hp].
    rewrite (step_running cfg s1 _ IHc), Hp.
    unfold transact. rewrite IHf.
    destruct r; simpl; (split; [reflexivity |]); (split; [reflexivity |]);
      (split;
       [rewrite writes_app, !length_app, IHlen; simpl; lia |
        intro m; unfold occurrences in *; rewrite filter_app; simpl;
        rewrite app_nil_r; apply IHocc]).
Qed.

Lemma occurrences_app (m : message) (l1 l2 : list event) :
  occurrences m (l1 ++ l2) = (occurrences m l1 + occurrences m l2)%nat.
Proof. unfold occurrences. rewrite filter_app, length_app. reflexivity. Qed.

End RunFacts.

(** X8. Once the first transaction has succeeded, no later outcome ends
    the loop: after a successful first tick and any number of further
    ticks, failed or not, the loop is still running, every tick has made
    its one transaction, the success message has been printed once, and
    the process has not exited (the reference voltage not being zero). *)
Theorem loop_survives_later_failures :
  forall (cfg : Communicate.config) (t0 : R) (later : list (R * write_result))
         (shutdown : write_result),
    Communicate.v_ref cfg <> 0%R ->
    let inputs := ticks ((t0, Success) :: later) in
    let s := Communicate.run cfg inputs in
    Communicate.control s = Communicate.Running /\
    Communicate.first_run s = false /\
    length (writes (Communicate.log s)) = length inputs /\
    occurrences MsgFirstWriteOk (Communicate.log s) = 1%nat /\
    occurrences MsgDeviceUnreachable (Communicate.log s) = 0%nat /\
    Communicate.main cfg true inputs shutdown =
      {| Communicate.exited := false; Communicate.trace := Communicate.log s |}.
Proof.
  intros cfg t0 later shutdown Hne inputs s.
  destruct (i2c_payload_total cfg t0 Hne) as [p0 Hp0].
  set (s1 := Communicate.step cfg (Communicate.initial cfg)
               (Communicate.Tick t0 Success)).
  assert (Hs1 : s1 = {| Communicate.control := Communicate.Running;
                        Communicate.first_run := false;
                        Communicate.log :=
                          (Communicate.log (Communicate.initial cfg) ++
                           [Write (Communicate.MCP4728_ADDRESS cfg)
                                  Communicate.SEQ_WRITE_COMMAND p0 Success])
                          ++ [Print MsgFirstWriteOk] |}).
  { unfold s1. rewrite step_running by reflexivity. rewrite Hp0.
    reflexivity. }
  assert (Hs : s = Communicate.run_from cfg s1 (ticks later)) by reflexivity.
  assert (Hc1 : Communicate.control s1 = Communicate.Running)
    by (rewrite Hs1; reflexivity).
  assert (Hf1 : Communicate.first_run s1 = false)
    by (rewrite Hs1; reflexivity).
  destruct (run_from_settled cfg s1 later Hne Hc1 Hf1)
    as (Hc & Hf & Hlen & Hocc).
  rewrite <- Hs in Hc, Hf, Hlen, Hocc.
  assert (Hinit : forall m, m <> MsgGainWarning -> m <> MsgBusOpened ->
                            m <> MsgPressCtrlC ->
                            occurrences m (Communicate.log
                                             (Communicate.initial cfg)) = 0%nat).
  { intros m H1 H2 H3. unfold Communicate.initial, occurrences. simpl.
    destruct (message_eq_dec m MsgBusOpened); [contradiction |].
    destruct (message_eq_dec m MsgPressCtrlC); [contradiction |].
    destruct ((Communicate.VREF_MODE cfg =? 0)
              && (Communicate.GAIN_MODE cfg =? 1))%bool; simpl;
      [destruct (message_eq_dec m MsgGainWarning); [contradiction |] |];
      reflexivity. }
  repeat split.
  - exact Hc.
  - exact Hf.
  - rewrite Hlen, Hs1. cbn [Communicate.log].
    rewrite !writes_app, initial_writes. unfold inputs, ticks. simpl.
    rewrite length_map. reflexivity.
  - rewrite Hocc, Hs1. cbn [Communicate.log].
    rewrite !occurrences_app, Hinit by discriminate. reflexivity.
  - rewrite Hocc, Hs1. cbn [Communicate.log].
    rewrite !occurrences_app, Hinit by discriminate. reflexivity.
  - apply main_running. exact Hc.
Qed.

Lemma loop_survives_later_failures_witness :
  Communicate.control
    (Communicate.run Communicate.source_config
       (ticks [(0%R, Success); (1%R, Failure); (2%R, Failure)]))
  = Communicate.Running.
Proof.
  apply (loop_survives_later_failures Communicate.source_config 0
           [(1%R, Failure); (2%R, Failure)] Success).
  rewrite source_v_ref. lra.
Defined.

Section ExitFacts.

Import Communicate.

Variable cfg : config.

Lemma run_from_terminated (s : state) (inputs : list input) :
  control s <> Running -> run_from cfg s inputs = s.
Proof.
  intro H. induction inputs as [| i inputs IH]; [reflexivity |].
  unfold run_from in *. simpl. rewrite step_terminated by exact H.
  exact IH.
Qed.

Lemma i2c_payload_raises (t : R) :
  v_ref cfg = 0%R -> i2c_payload cfg t = Raise ZeroDivisionError.
Proof.
  intro H0. unfold i2c_payload, channel_order. simpl. unfold encode.
  rewrite digital_value_raises by exact H0. reflexivity.
Qed.

(** Where the bus is closed in a log that closes it once. *)
Lemma close_position (a q pre post : list event) :
  filter is_close a = [] ->
  a ++ Close :: q = pre ++ Close :: post ->
  filter is_close pre = [] ->
  pre = a /\ post = q.
Proof.
  revert pre. induction a as [| e a IH]; intros pre Ha Heq Hpre.
  - destruct pre as [| e' pre].
    + simpl in Heq. injection Heq as <-. split; reflexivity.
    + simpl in Heq. injection Heq as <- _. simpl in Hpre. discriminate.
  - destruct pre as [| e' pre].
    + simpl in Heq. injection Heq as -> _. simpl in Ha. discriminate.
    + simpl in Heq. injection Heq as <- Heq.
      simpl in Ha, Hpre. destruct (is_close e); [discriminate |].
      destruct (IH pre Ha Heq Hpre) as [-> ->]. split; reflexivity.
Qed.

End ExitFacts.

(** X9. With the supply as reference and a supply voltage of zero, the
    first tick raises [ZeroDivisionError] before anything is sent: the run
    is aborted, the only bus transaction of the process is the zeroing
    write of the [finally] block, and the bus is closed. *)
Theorem zero_supply_run :
  forall (cfg : Communicate.config) (t : R) (r shutdown : write_result)
         (rest : list Communicate.input),
    Communicate.VREF_MODE cfg = 0 ->
    Communicate.VDD cfg = 0%R ->
    let inputs := Communicate.Tick t r :: rest in
    let o := Communicate.main cfg true inputs shutdown in
    Communicate.control (Communicate.run cfg inputs)
      = Communicate.Aborted ZeroDivisionError /\
    Communicate.exited o = true /\
    writes (Communicate.trace o) =
      [Write (Communicate.MCP4728_ADDRESS cfg) Communicate.SEQ_WRITE_COMMAND
             (Communicate.zero_volt_payload cfg) shutdown] /\
    filter is_close (Communicate.trace o) = [Close].
Proof.
  intros cfg t r shutdown rest Hmode Hvdd inputs o.
  assert (H0 : Communicate.v_ref cfg = 0%R)
    by (apply v_ref_zero_iff; split; assumption).
  assert (Hrun : Communicate.run cfg inputs =
                 {| Communicate.control := Communicate.Aborted ZeroDivisionError;
                    Communicate.first_run := true;
                    Communicate.log :=
                      Communicate.log (Communicate.initial cfg) |}).
  { unfold inputs. rewrite run_cons.
    rewrite (step_running cfg (Communicate.initial cfg)) by reflexivity.
    rewrite (i2c_payload_raises cfg t H0).
    apply run_from_terminated. discriminate. }
  assert (Hexit : Communicate.control (Communicate.run cfg inputs)
                  <> Communicate.Running) by (rewrite Hrun; discriminate).
  split; [rewrite Hrun; reflexivity |].
  unfold o. rewrite (main_exit cfg inputs shutdown Hexit).
  cbn [Communicate.exited Communicate.trace].
  split; [reflexivity |]. split.
  - rewrite !writes_app, handlers_no_write, Hrun. cbn [Communicate.log].
    rewrite initial_writes. destruct shutdown; reflexivity.
  - rewrite !filter_app, run_no_close, handlers_no_close.
    destruct shutdown; reflexivity.
Qed.

Lemma zero_supply_run_witness :
  writes (Communicate.trace
            (Communicate.main
               {| Communicate.MCP4728_ADDRESS := 0x60;
                  Communicate.CHANNEL_FREQUENCIES := fun _ => 0.01%R;
                  Communicate.VDD := 0%R;
                  Communicate.VREF_MODE := 0;
                  Communicate.GAIN_MODE := 0 |}
               true [Communicate.Tick 0 Success] Success)) =
    [Write 0x60 0x40 [0; 0; 0; 0; 0; 0; 0; 0] Success].
Proof.
  apply (zero_supply_run
           {| Communicate.MCP4728_ADDRESS := 0x60;
              Communicate.CHANNEL_FREQUENCIES := fun _ => 0.01%R;
              Communicate.VDD := 0%R;
              Communicate.VREF_MODE := 0;
              Communicate.GAIN_MODE := 0 |}
           0%R Success Success []); reflexivity.
Defined.

(** X10. The bus of [communicate.py] is never used after it is closed:
    wherever [Close] stands in the trace of a run, the handle had been
    acquired, the process has exited, no [Close] comes before it, and all
    that follows is the closing message.  A run without a handle, or one
    still in the loop, has no [Close] at all. *)
Theorem bus_never_used_after_close :
  forall (cfg : Communicate.config) (bus_available : bool)
         (inputs : list Communicate.input) (shutdown : write_result),
    let o := Communicate.main cfg bus_available inputs shutdown in
    (forall pre post,
        Communicate.trace o = pre ++ Close :: post ->
        bus_available = true /\
        Communicate.exited o = true /\
        filter is_close pre = [] /\
        post = [Print MsgBusClosed]) /\
    (bus_available = false \/ Communicate.exited o = false ->
     filter is_close (Communicate.trace o) = []).
Proof.
  intros cfg bus_available inputs shutdown o.
  assert (Hnone : bus_available = false \/ Communicate.exited o = false ->
                  filter is_close (Communicate.trace o) = []).
  { intros [-> | Hrun].
    - reflexivity.
    - destruct bus_available; [| reflexivity].
      destruct (Communicate.control (Communicate.run cfg inputs)) eqn:Hc.
      + unfold o. rewrite (main_running cfg inputs shutdown Hc).
        apply run_no_close.
      + unfold o in Hrun. rewrite main_exit in Hrun by congruence.
        discriminate.
      + unfold o in Hrun. rewrite main_exit in Hrun by congruence.
        discriminate.
      + unfold o in Hrun. rewrite main_exit in Hrun by congruence.
        discriminate. }
  split; [| exact Hnone].
  intros pre post Heq.
  assert (Hsome : filter is_close (Communicate.trace o) <> []).
  { rewrite Heq, filter_app. simpl.
    destruct (filter is_close pre); discriminate. }
  destruct bus_available;
    [| exfalso; apply Hsome, Hnone; left; reflexivity].
  destruct (Communicate.exited o) eqn:Hex;
    [| exfalso; apply Hsome, Hnone; right; reflexivity].
  assert (Hexit : Communicate.control (Communicate.run cfg inputs)
                  <> Communicate.Running)
    by (apply main_exited_iff with (shutdown := shutdown); exact Hex).
  split; [reflexivity |]. split; [reflexivity |].
  unfold o in Heq. rewrite (main_exit cfg inputs shutdown Hexit) in Heq.
  cbn [Communicate.trace] in Heq. rewrite finally_eq in Heq.
  set (a := Communicate.log (Communicate.run cfg inputs) ++
            Communicate.handlers
              (Communicate.control (Communicate.run cfg inputs)) ++
            [Print MsgZeroing;
             Write (Communicate.MCP4728_ADDRESS cfg)
                   Communicate.SEQ_WRITE_COMMAND
                   (Communicate.zero_volt_payload cfg) shutdown] ++
            match shutdown with
            | Success => []
            | Failure => [Print MsgZeroingFailed]
            end).
  assert (Ha : filter is_close a = []).
  { unfold a. rewrite !filter_app, run_no_close, handlers_no_close.
    destruct shutdown; reflexivity. }
  assert (Htrace : a ++ Close :: [Print MsgBusClosed] = pre ++ Close :: post).
  { rewrite <- Heq. unfold a. rewrite <- !app_assoc. reflexivity. }
  assert (Hone : filter is_close (pre ++ Close :: post) = [Close]).
  { rewrite <- Htrace, filter_app, Ha. reflexivity. }
  rewrite filter_app in Hone. simpl in Hone.
  destruct (filter is_close pre) as [| e l] eqn:Hpre.
  - destruct (close_position a [Print MsgBusClosed] pre post Ha Htrace Hpre)
      as [_ ->].
    split; reflexivity.
  - simpl in Hone. injection Hone as _ Hone.
    destruct l; discriminate.
Qed.

Lemma bus_never_used_after_close_witness :
  filter is_close
    [Print MsgBusOpened; Print MsgPressCtrlC; Print MsgStoppedByUser;
     Print MsgZeroing; Write 0x60 0x40 [0; 0; 0; 0; 0; 0; 0; 0] Failure;
     Print MsgZeroingFailed] = [].
Proof.
  apply (bus_never_used_after_close Communicate.source_config true
           [Communicate.CtrlC] Failure) with (post := [Print MsgBusClosed]).
  reflexivity.
Defined.

(** ** What the messages of [communicate.py] tell *)

Section DiagnosticFacts.

Import Communicate.

Variable cfg : config.

(** What the loop adds to the log after the opening messages: nothing but
    bus transactions and its own three messages, the success message once
    [first_run] is cleared, the fault message on the fault exit. *)
Lemma run_log_rest (inputs : list input) :
  exists rest,
    log (run cfg inputs) = log (initial cfg) ++ rest /\
    (forall m, m <> MsgFirstWriteOk -> m <> MsgDeviceUnreachable ->
               m <> MsgWillExit -> occurrences m rest = 0%nat) /\
    occurrences MsgFirstWriteOk rest
      = (if first_run (run cfg inputs) then 0 else 1)%nat /\
    occurrences MsgDeviceUnreachable rest
      = match control (run cfg inputs) with
        | Faulted => 1%nat
        | _ => 0%nat
        end.
Proof.
  induction inputs as [| i inputs IH] using rev_ind.
  - exists []. rewrite app_nil_r. repeat split.
  - destruct IH as (rest & Hlog & Hother & Hok & Hfault).
    rewrite run_snoc.
    destruct (control (run cfg inputs)) eqn:Hc;
      try (rewrite step_terminated by congruence;
           exists rest; rewrite Hc; repeat split; assumption).
    rewrite (step_running cfg _ _ Hc).
    destruct i as [t r |];
      [| exists rest; repeat split; assumption].
    destruct (i2c_payload cfg t) as [payload | e];
      [| exists rest; repeat split; assumption].
    unfold transact.
    destruct r, (first_run (run cfg inputs)) eqn:Hf; cbn [log control first_run];
      rewrite Hlog, <- ?app_assoc;
      eexists; (split; [reflexivity |]);
      repeat split;
      try (intros m H1 H2 H3); rewrite ?occurrences_app, ?Hok, ?Hfault;
      try rewrite (Hother m H1 H2 H3);
      unfold occurrences; simpl;
      repeat match goal with
        | |- context [message_eq_dec ?a ?b] =>
            destruct (message_eq_dec a b); try contradiction; try discriminate
        end;
      reflexivity.
Qed.

Lemma initial_occurrences (m : message) :
  m <> MsgBusOpened -> m <> MsgPressCtrlC -> m <> MsgGainWarning ->
  occurrences m (log (initial cfg)) = 0%nat.
Proof.
  intros H1 H2 H3. unfold initial, occurrences. simpl.
  destruct (message_eq_dec m MsgBusOpened); [contradiction |].
  destruct (message_eq_dec m MsgPressCtrlC); [contradiction |].
  destruct ((VREF_MODE cfg =? 0) && (GAIN_MODE cfg =? 1))%bool; simpl;
    [destruct (message_eq_dec m MsgGainWarning); [contradiction |] |];
    reflexivity.
Qed.

End DiagnosticFacts.

(** X11. The gain warning of [communicate.py] is a one-time warning: it
    is printed exactly when the supply is the reference and the gain is
    set to 2x, right after the two opening messages and so before any bus
    transaction, and never again in the run. *)
Theorem gain_warning_once :
  forall (cfg : Communicate.config) (inputs : list Communicate.input)
         (shutdown : write_result),
    let misconfigured :=
      ((Communicate.VREF_MODE cfg =? 0) && (Communicate.GAIN_MODE cfg =? 1))%bool
    in
    exists rest,
      Communicate.trace (Communicate.main cfg true inputs shutdown) =
        [Print MsgBusOpened; Print MsgPressCtrlC] ++
        (if misconfigured then [Print MsgGainWarning] else []) ++ rest /\
      occurrences MsgGainWarning rest = 0%nat /\
      occurrences MsgGainWarning
        (Communicate.trace (Communicate.main cfg true inputs shutdown))
        = (if misconfigured then 1 else 0)%nat.
Proof.
  intros cfg inputs shutdown misconfigured.
  destruct (run_log_rest cfg inputs) as (rest & Hlog & Hother & _ & _).
  assert (Hrest : occurrences MsgGainWarning rest = 0%nat)
    by (apply Hother; discriminate).
  assert (Hinit : Communicate.log (Communicate.initial cfg) =
                  [Print MsgBusOpened; Print MsgPressCtrlC] ++
                  (if misconfigured then [Print MsgGainWarning] else []))
    by reflexivity.
  assert (Htail : forall c r,
             occurrences MsgGainWarning
               (Communicate.handlers c ++ Communicate.finally cfg true r)
             = 0%nat)
    by (intros c r; destruct c, r; reflexivity).
  assert (Hcount : forall tail,
             occurrences MsgGainWarning tail = 0%nat ->
             occurrences MsgGainWarning
               (([Print MsgBusOpened; Print MsgPressCtrlC] ++
                 (if misconfigured then [Print MsgGainWarning] else []))
                ++ tail)
             = (if misconfigured then 1 else 0)%nat).
  { intros tail Ht. rewrite occurrences_app, Ht.
    destruct misconfigured; reflexivity. }
  destruct (Communicate.control (Communicate.run cfg inputs)) eqn:Hc.
  - rewrite (main_running cfg inputs shutdown Hc).
    cbn [Communicate.trace]. rewrite Hlog, Hinit.
    exists rest. split; [rewrite <- app_assoc; reflexivity |].
    split; [exact Hrest | apply Hcount, Hrest].
  - rewrite main_exit by congruence. cbn [Communicate.trace].
    rewrite Hlog, Hinit, Hc.
    exists (rest ++ Communicate.handlers Communicate.Faulted
                 ++ Communicate.finally cfg true shutdown).
    split; [rewrite <- !app_assoc; reflexivity |].
    assert (Ht : occurrences MsgGainWarning
                   (rest ++ Communicate.handlers Communicate.Faulted
                         ++ Communicate.finally cfg true shutdown) = 0%nat)
      by (rewrite occurrences_app, Hrest, Htail; reflexivity).
    split; [exact Ht |]. rewrite <- (Hcount _ Ht), <- !app_assoc.
    reflexivity.
  - rewrite main_exit by congruence. cbn [Communicate.trace].
    rewrite Hlog, Hinit, Hc.
    exists (rest ++ Communicate.handlers Communicate.Stopped
                 ++ Communicate.finally cfg true shutdown).
    split; [rewrite <- !app_assoc; reflexivity |].
    assert (Ht : occurrences MsgGainWarning
                   (rest ++ Communicate.handlers Communicate.Stopped
                         ++ Communicate.finally cfg true shutdown) = 0%nat)
      by (rewrite occurrences_app, Hrest, Htail; reflexivity).
    split; [exact Ht |]. rewrite <- (Hcount _ Ht), <- !app_assoc.
    reflexivity.
  - rewrite main_exit by congruence. cbn [Communicate.trace].
    rewrite Hlog, Hinit, Hc.
    exists (rest ++ Communicate.handlers (Communicate.Aborted e)
                 ++ Communicate.finally cfg true shutdown).
    split; [rewrite <- !app_assoc; reflexivity |].
    assert (Ht : occurrences MsgGainWarning
                   (rest ++ Communicate.handlers (Communicate.Aborted e)
                         ++ Communicate.finally cfg true shutdown) = 0%nat)
      by (rewrite occurrences_app, Hrest, Htail; reflexivity).
    split; [exact Ht |]. rewrite <- (Hcount _ Ht), <- !app_assoc.
    reflexivity.
Qed.

(** X12. The messages of [communicate.py] tell how the run ended.  In
    the trace of a run with a bus handle, by the way the loop was left: the
    fault message is printed once exactly on the fault exit, the
    stopped-by-user message once exactly after Ctrl-C, the
    unexpected-error message once exactly after another exception, the
    zeroing-failed message once exactly when the process has exited and
    the zeroing transaction failed, and the bus-closed message once
    exactly when the process has exited.  A run without a bus handle has
    exited too, and prints the unexpected-error message once and none of
    the others, the bus-closed message included. *)
Theorem messages_tell_the_exit :
  forall (cfg : Communicate.config) (inputs : list Communicate.input)
         (shutdown : write_result),
    let c := Communicate.control (Communicate.run cfg inputs) in
    let T := Communicate.trace (Communicate.main cfg true inputs shutdown) in
    let o0 := Communicate.main cfg false inputs shutdown in
    (occurrences MsgDeviceUnreachable T =
       match c with Communicate.Faulted => 1 | _ => 0 end%nat /\
     occurrences MsgStoppedByUser T =
       match c with Communicate.Stopped => 1 | _ => 0 end%nat /\
     occurrences MsgUnexpected T =
       match c with Communicate.Aborted _ => 1 | _ => 0 end%nat /\
     occurrences MsgZeroingFailed T =
       match c, shutdown with
       | Communicate.Running, _ => 0
       | _, Failure => 1
       | _, Success => 0
       end%nat /\
     occurrences MsgBusClosed T =
       match c with Communicate.Running => 0 | _ => 1 end%nat) /\
    occurrences MsgBusClosed T =
      (if Communicate.exited (Communicate.main cfg true inputs shutdown)
       then 1 else 0)%nat /\
    Communicate.exited o0 = true /\
    (forall m,
        occurrences m (Communicate.trace o0) =
          if message_eq_dec m MsgUnexpected then 1%nat else 0%nat).
Proof.
  intros cfg inputs shutdown c T o0.
  destruct (run_log_rest cfg inputs) as (rest & Hlog & Hother & _ & Hfault).
  fold c in Hfault.
  assert (Hloop : forall m,
             m <> MsgBusOpened -> m <> MsgPressCtrlC -> m <> MsgGainWarning ->
             m <> MsgFirstWriteOk -> m <> MsgDeviceUnreachable ->
             m <> MsgWillExit ->
             occurrences m (Communicate.log (Communicate.run cfg inputs))
             = 0%nat).
  { intros m H1 H2 H3 H4 H5 H6.
    rewrite Hlog, occurrences_app, initial_occurrences, Hother by assumption.
    reflexivity. }
  assert (Hf : occurrences MsgDeviceUnreachable
                 (Communicate.log (Communicate.run cfg inputs))
               = match c with Communicate.Faulted => 1 | _ => 0 end%nat).
  { rewrite Hlog, occurrences_app, initial_occurrences, Hfault
      by discriminate. reflexivity. }
  assert (HT : T = match c with
                   | Communicate.Running =>
                       Communicate.log (Communicate.run cfg inputs)
                   | _ =>
                       Communicate.log (Communicate.run cfg inputs) ++
                       Communicate.handlers c ++
                       Communicate.finally cfg true shutdown
                   end).
  { unfold T, c. destruct (Communicate.control (Communicate.run cfg inputs))
      eqn:Hc;
      [rewrite (main_running cfg inputs shutdown Hc); reflexivity | | |];
      rewrite main_exit by congruence; rewrite Hc; reflexivity. }
  assert (Hex : Communicate.exited
                  (Communicate.main cfg true inputs shutdown) =
                match c with Communicate.Running => false | _ => true end).
  { unfold c. destruct (Communicate.control (Communicate.run cfg inputs))
      eqn:Hc;
      [rewrite (main_running cfg inputs shutdown Hc); reflexivity | | |];
      rewrite main_exit by congruence; reflexivity. }
  rewrite Hex, HT. clear HT Hex.
  split; [| split; [| split; [reflexivity |]]].
  - destruct c; repeat split;
      rewrite ?occurrences_app, ?Hf, ?Hloop by discriminate;
      destruct shutdown; reflexivity.
  - destruct c;
      rewrite ?occurrences_app, ?Hloop by discriminate;
      destruct shutdown; reflexivity.
  - intro m. unfold o0, occurrences. simpl.
    destruct (message_eq_dec m MsgUnexpected); reflexivity.
Qed.

(** ** Bytes on the bus *)

Section ByteFacts.

Lemma zeroed_data_msb_byte (cfg : Zeroed.config) :
  is_byte (Zeroed.data_msb cfg).
Proof.
  assert (H : Zeroed.data_msb cfg = Z.land (Zeroed.data_msb cfg) (Z.ones 8)).
  { unfold Zeroed.data_msb, Zeroed.digital_value.
    change 0x0F with (Z.ones 4). change 0x01 with (Z.ones 1).
    simpl (Z.land 0 _). simpl (Z.shiftl 0 _). simpl (Z.shiftr 0 _).
    Z.bitblast. }
  rewrite Z.land_ones in H by lia.
  unfold is_byte. rewrite H.
  pose proof (Z.mod_pos_bound (Zeroed.data_msb cfg) (2 ^ 8)). lia.
Qed.

Lemma zero_volt_payload_bytes (cfg : Communicate.config) :
  Forall is_byte (Communicate.zero_volt_payload cfg).
Proof.
  rewrite zero_volt_payload_eq, zero_msb_data_msb.
  repeat constructor; try apply data_msb_byte; unfold is_byte; lia.
Qed.

End ByteFacts.

(** X13. Whatever the integer settings, every value the two scripts hand
    to a bus transaction, in the loop, in the [finally] block and in
    [zeroed.py], is a byte (0 to 255). *)
Theorem every_payload_value_is_a_byte :
  forall (cfg : Communicate.config) (zcfg : Zeroed.config)
         (bus_available : bool) (inputs : list Communicate.input)
         (shutdown : write_result) (outcome_of : channel -> write_result),
    Forall carries_bytes
           (Communicate.trace
              (Communicate.main cfg bus_available inputs shutdown)) /\
    Forall carries_bytes (Zeroed.main zcfg bus_available outcome_of).
Proof.
  intros cfg zcfg bus_available inputs shutdown outcome_of. split.
  - apply main_trace_Forall; simpl; auto.
    + intros t payload _ Hp. apply (i2c_payload_bytes cfg t), Hp.
    + intros _. apply zero_volt_payload_bytes.
  - apply zeroed_main_Forall; simpl; auto.
    intros _ _. unfold Zeroed.i2c_payload.
    constructor; [apply zeroed_data_msb_byte |].
    constructor; [| constructor].
    unfold is_byte, Zeroed.data_lsb, Zeroed.digital_value. simpl. lia.
Qed.

(** X14. Reading a tick's payload back, two bytes at a time, gives for the
    channels A, B, C, D in this order the low bit of the reference
    setting, the low bit of the gain setting, and the digital value the
    encoder computed for the channel's sample. *)
Theorem payload_reads_back :
  forall (cfg : Communicate.config) (t : R) (payload : list Z),
    Communicate.i2c_payload cfg t = Ok payload ->
    exists dA dB dC dD,
      Communicate.digital_value cfg (Communicate.voltage cfg A t) = Ok dA /\
      Communicate.digital_value cfg (Communicate.voltage cfg B t) = Ok dB /\
      Communicate.digital_value cfg (Communicate.voltage cfg C t) = Ok dC /\
      Communicate.digital_value cfg (Communicate.voltage cfg D t) = Ok dD /\
      decode_payload payload =
        map (fun d => (Z.odd (Communicate.VREF_MODE cfg),
                       Z.odd (Communicate.GAIN_MODE cfg), d))
            [dA; dB; dC; dD].
Proof.
  intros cfg t payload Hp.
  destruct (i2c_payload_inv cfg t payload Hp)
    as (dA & dB & dC & dD & HA & HB & HC & HD & ->).
  exists dA, dB, dC, dD. repeat (split; [assumption |]).
  assert (Hpair : forall v d,
             Communicate.digital_value cfg v = Ok d ->
             Spec.decode (Communicate.data_msb cfg d) (Communicate.data_lsb d)
             = (Z.odd (Communicate.VREF_MODE cfg),
                Z.odd (Communicate.GAIN_MODE cfg), d)).
  { intros v d Hd. unfold Spec.decode.
    rewrite data_msb_bit7, data_msb_bit4, !Z.bit0_odd.
    rewrite (reassemble cfg d (digital_value_12bit cfg v d Hd)).
    reflexivity. }
  simpl.
  rewrite (Hpair _ _ HA), (Hpair _ _ HB), (Hpair _ _ HC), (Hpair _ _ HD).
  reflexivity.
Qed.

Lemma payload_reads_back_witness :
  exists payload dA dB dC dD,
    Communicate.i2c_payload Communicate.source_config 1 = Ok payload /\
    decode_payload payload =
      [(false, false, dA); (false, false, dB);
       (false, false, dC); (false, false, dD)].
Proof.
  assert (Hne : Communicate.v_ref Communicate.source_config <> 0%R)
    by (rewrite source_v_ref; lra).
  destruct (i2c_payload_total Communicate.source_config 1 Hne)
    as [payload Hp].
  destruct (payload_reads_back Communicate.source_config 1 payload Hp)
    as (dA & dB & dC & dD & _ & _ & _ & _ & Hdec).
  exists payload, dA, dB, dC, dD. split; [exact Hp | exact Hdec].
Defined.

(** ** Whole runs of [zeroed.py] *)

(** X15. In [zeroed.py] with a bus handle, the closing line "finished
    setting all channels" is printed exactly when all four transactions
    succeed; then the run made the four single-channel writes in the order
    A, B, C, D and every register of the device received the zero payload
    once. *)
Theorem zeroed_all_set :
  forall (cfg : Zeroed.config) (outcome_of : channel -> write_result)
         (register : Type)
         (effect : write_result -> list Z -> register -> register)
         (regs : channel -> register),
    let log := Zeroed.main cfg true outcome_of in
    ((forall c, outcome_of c = Success) <-> In (Print MsgAllSet) log) /\
    ((forall c, outcome_of c = Success) ->
     writes log = map (channel_write cfg outcome_of) [A; B; C; D] /\
     forall c,
       device_run register effect regs log c =
         effect Success (Zeroed.i2c_payload cfg) (regs c)).
Proof.
  intros cfg outcome_of register effect regs log.
  assert (Hall : (forall c, outcome_of c = Success) ->
                 log = [Print MsgBusOpened;
                        channel_write cfg outcome_of A; Print (MsgChannelSet A);
                        channel_write cfg outcome_of B; Print (MsgChannelSet B);
                        channel_write cfg outcome_of C; Print (MsgChannelSet C);
                        channel_write cfg outcome_of D; Print (MsgChannelSet D);
                        Print MsgAllSet; Close; Print MsgBusClosed]).
  { intro H. unfold log, Zeroed.main, channel_write. simpl.
    rewrite !H. reflexivity. }
  split; [split |].
  - intro H. rewrite (Hall H). simpl. auto 12.
  - intros Hin c. unfold log, Zeroed.main in Hin. simpl in Hin.
    destruct (outcome_of A) eqn:HA;
      [| repeat (destruct Hin as [Hin | Hin]; try discriminate);
         contradiction].
    destruct (outcome_of B) eqn:HB;
      [| repeat (destruct Hin as [Hin | Hin]; try discriminate);
         contradiction].
    destruct (outcome_of C) eqn:HC;
      [| repeat (destruct Hin as [Hin | Hin]; try discriminate);
         contradiction].
    destruct (outcome_of D) eqn:HD;
      [| repeat (destruct Hin as [Hin | Hin]; try discriminate);
         contradiction].
    destruct c; assumption.
  - intro H. rewrite (Hall H). split; [reflexivity |].
    intro c. unfold channel_write. rewrite !H.
    destruct c; reflexivity.
Qed.

Lemma zeroed_all_set_witness :
  writes (Zeroed.main Zeroed.source_config true (fun _ => Success)) =
    [Write 0x60 0x58 [0; 0] Success; Write 0x60 0x5A [0; 0] Success;
     Write 0x60 0x5C [0; 0] Success; Write 0x60 0x5E [0; 0] Success].
Proof.
  apply (zeroed_all_set Zeroed.source_config (fun _ => Success)
           unit (fun _ _ u => u) (fun _ => tt)).
  reflexivity.
Defined.

(** X16. In [zeroed.py], when the write for channel [k] is the first to
    fail, the register of every channel before [k] has received the zero
    payload once by a successful transaction, and the register of [k] was
    addressed once, by the failed one. *)
Theorem zeroed_registers_up_to_failure :
  forall (cfg : Zeroed.config) (outcome_of : channel -> write_result)
         (before after : list channel) (k : channel)
         (register : Type)
         (effect : write_result -> list Z -> register -> register)
         (regs : channel -> register),
    [A; B; C; D] = before ++ k :: after ->
    (forall c, In c before -> outcome_of c = Success) ->
    outcome_of k = Failure ->
    let log := Zeroed.main cfg true outcome_of in
    (forall c, In c before ->
       device_run register effect regs log c =
         effect Success (Zeroed.i2c_payload cfg) (regs c)) /\
    device_run register effect regs log k =
      effect Failure (Zeroed.i2c_payload cfg) (regs k) /\
    ~ In (Print MsgAllSet) log.
Proof.
  intros cfg outcome_of before after k register effect regs Hsplit Hbefore
    Hk log.
  assert (Hlog : log =
            [Print MsgBusOpened] ++
            (flat_map (fun c => [channel_write cfg outcome_of c;
                                 Print (MsgChannelSet c)]) before
             ++ [channel_write cfg outcome_of k; Print (MsgChannelError k);
                 Print MsgCheckConnections])
            ++ [] ++ [Close; Print MsgBusClosed]).
  { unfold log, Zeroed.main. rewrite Hsplit.
    rewrite (write_channels_break cfg outcome_of before after k Hbefore Hk).
    reflexivity. }
  assert (Hcases :
      (before = [] /\ k = A) \/ (before = [A] /\ k = B) \/
      (before = [A; B] /\ k = C) \/ (before = [A; B; C] /\ k = D)).
  { destruct before as [| b1 [| b2 [| b3 [| b4 before']]]];
      simpl in Hsplit; injection Hsplit; intros; subst; auto 6.
    destruct before'; discriminate. }
  clear Hsplit.
  destruct Hcases as [(-> & ->) | [(-> & ->) | [(-> & ->) | (-> & ->)]]];
    rewrite Hlog; unfold channel_write; simpl; rewrite ?Hk;
    rewrite ?(Hbefore A), ?(Hbefore B), ?(Hbefore C) by (simpl; auto);
    clear Hlog log; (split; [| split]);
    try reflexivity;
    try (intros c Hc; simpl in Hc;
         repeat (destruct Hc as [<- | Hc]); try contradiction; reflexivity);
    intro Hin;
    repeat (destruct Hin as [Hin | Hin]; try discriminate); contradiction.
Qed.

Lemma zeroed_registers_up_to_failure_witness :
  device_run nat (fun _ _ n => S n) (fun _ => O)
    (Zeroed.main Zeroed.source_config true
       (fun c => match c with C => Failure | _ => Success end)) C = 1%nat.
Proof.
  apply (zeroed_registers_up_to_failure Zeroed.source_config
           (fun c => match c with C => Failure | _ => Success end)
           [A; B] [D] C nat (fun _ _ n => S n) (fun _ => O)).
  - reflexivity.
  - intros c [<- | [<- | []]]; reflexivity.
  - reflexivity.
Defined.

(** X17. The command bytes of [zeroed.py] tell the channels apart: each
    is a byte, the device reads the channel back from it, two channels
    never share one, and none of them is the sequential-write command of
    [communicate.py]. *)
Theorem command_bytes_distinct :
  forall ch1 ch2 : channel,
    is_byte (Zeroed.command_byte ch1) /\
    addressed (Zeroed.command_byte ch1) = Some ch1 /\
    (Zeroed.command_byte ch1 = Zeroed.command_byte ch2 <-> ch1 = ch2) /\
    Zeroed.command_byte ch1 <> Communicate.SEQ_WRITE_COMMAND /\
    addressed Communicate.SEQ_WRITE_COMMAND = None.
Proof.
  intros ch1 ch2.
  split; [destruct ch1; unfold is_byte; split; vm_compute; discriminate |].
  split; [destruct ch1; reflexivity |].
  split; [| split; [destruct ch1; discriminate | reflexivity]].
  split.
  - destruct ch1, ch2; intro H; try reflexivity; discriminate.
  - intros ->. reflexivity.
Qed.

(** X18. The two scripts agree on the zero encoding: on the same
    reference and gain settings, the two bytes [zeroed.py] sends to each
    channel are the two bytes per channel of the zeroing payload of
    [communicate.py]. *)
Theorem zeroed_matches_shutdown_payload :
  forall (cfg : Communicate.config) (zcfg : Zeroed.config),
    Zeroed.VREF_MODE zcfg = Communicate.VREF_MODE cfg ->
    Zeroed.GAIN_MODE zcfg = Communicate.GAIN_MODE cfg ->
    Zeroed.i2c_payload zcfg = [Communicate.zero_msb cfg; 0] /\
    flat_map (fun _ : channel => Zeroed.i2c_payload zcfg) [A; B; C; D] =
      Communicate.zero_volt_payload cfg.
Proof.
  intros cfg zcfg Hv Hg.
  assert (H : Zeroed.i2c_payload zcfg = [Communicate.zero_msb cfg; 0]).
  { unfold Zeroed.i2c_payload, Zeroed.data_msb, Zeroed.data_lsb,
      Zeroed.digital_value, Communicate.zero_msb.
    rewrite Hv, Hg. simpl. rewrite !Z.lor_0_r. reflexivity. }
  split; [exact H |].
  rewrite zero_volt_payload_eq. cbn [flat_map]. rewrite H. reflexivity.
Qed.

Lemma zeroed_matches_shutdown_payload_witness :
  Zeroed.i2c_payload Zeroed.source_config =
    [Communicate.zero_msb Communicate.source_config; 0].
Proof.
  apply (zeroed_matches_shutdown_payload Communicate.source_config
           Zeroed.source_config); reflexivity.
Defined.

(** X19. A run of [zeroed.py] with a bus handle makes between one and
    four transactions, then closes the bus once, and all that follows is
    the closing message; a run without a handle makes no transaction and
    closes nothing. *)
Theorem zeroed_bus_discipline :
  forall (cfg : Zeroed.config) (outcome_of : channel -> write_result),
    (exists before,
        Zeroed.main cfg true outcome_of =
          before ++ [Close; Print MsgBusClosed] /\
        filter is_close before = [] /\
        (1 <= length (writes before) <= 4)%nat) /\
    writes (Zeroed.main cfg false outcome_of) = [] /\
    filter is_close (Zeroed.main cfg false outcome_of) = [].
Proof.
  intros cfg outcome_of. split; [| split; reflexivity].
  unfold Zeroed.main. simpl.
  destruct (outcome_of A);
    [destruct (outcome_of B);
     [destruct (outcome_of C); [destruct (outcome_of D) | ] | ] | ];
    simpl;
    match goal with
    | |- exists before, ?l = _ /\ _ =>
        exists (removelast (removelast l))
    end;
    simpl; repeat split; lia.
Qed.

(** ** [picture.py]: the closest point of a depth frame *)

Section PictureFacts.

Import Picture.

Local Open Scope R_scope.

Lemma np_min_spec (rest : list R) :
  forall d,
    In (np_min d rest) (d :: rest) /\
    forall x, In x (d :: rest) -> np_min d rest <= x.
Proof.
  unfold np_min. induction rest as [| e rest IH]; intro d; simpl.
  - split; [left; reflexivity |].
    intros x [<- | []]. lra.
  - destruct (IH (Rmin d e)) as [Hin Hle]. split.
    + destruct Hin as [Heq | Hin]; [| right; right; exact Hin].
      rewrite <- Heq. unfold Rmin. destruct (Rle_dec d e); auto.
    + intros x Hx.
      assert (Hm : fold_left Rmin rest (Rmin d e) <= Rmin d e)
        by (apply Hle; left; reflexivity).
      destruct Hx as [<- | [<- | Hx]].
      * pose proof (Rmin_l d e). lra.
      * pose proof (Rmin_r d e). lra.
      * apply Hle. right. exact Hx.
Qed.

Lemma non_zero_depths_spec (data : frame) (x : R) :
  In x (non_zero_depths data) <->
  (exists row, In row data /\ In x row) /\ 0 < x.
Proof.
  unfold non_zero_depths. rewrite filter_In, in_concat.
  destruct (Rgt_dec x 0) as [Hpos | Hneg]; split.
  - intros [(row & Hrow & Hx) _]. split; [exists row; auto | lra].
  - intros [(row & Hrow & Hx) _]. split; [exists row; auto | reflexivity].
  - intros [_ H]. discriminate.
  - intros [_ H]. lra.
Qed.

End PictureFacts.

(** X20. For a depth frame with at least one pixel above zero,
    [picture.py] prints one line, for the smallest of the pixels above
    zero converted to inches: the value is a pixel of the frame, it is
    above zero, and no pixel above zero is smaller; pixels at zero (no
    depth measured) never make the result. *)
Theorem closest_point_is_minimum :
  forall (data : Picture.frame),
    (exists row d, In row data /\ In d row /\ (0 < d)%R) ->
    exists (m : R) (row : list R),
      Picture.process Picture.Depth data =
        [Picture.ClosestPoint (m * Picture.MM_TO_INCHES)] /\
      In row data /\ In m row /\ (0 < m)%R /\
      (forall row' d', In row' data -> In d' row' -> (0 < d')%R ->
                       (m <= d')%R) /\
      (0 < m * Picture.MM_TO_INCHES)%R.
Proof.
  intros data (row0 & d0 & Hrow0 & Hd0 & Hpos0).
  assert (Hin0 : In d0 (Picture.non_zero_depths data)).
  { apply non_zero_depths_spec. split; [exists row0; auto | exact Hpos0]. }
  unfold Picture.process.
  destruct (Picture.non_zero_depths data) as [| d rest] eqn:Hnz;
    [contradiction |].
  destruct (np_min_spec rest d) as [Hmin_in Hmin_le].
  rewrite <- Hnz in Hmin_in.
  apply non_zero_depths_spec in Hmin_in.
  destruct Hmin_in as [(row & Hrow & Hm) Hmpos].
  exists (Picture.np_min d rest), row.
  split; [reflexivity |].
  repeat split; try assumption.
  - intros row' d' Hrow' Hd' Hpos'. apply Hmin_le. rewrite <- Hnz.
    apply non_zero_depths_spec. split; [exists row'; auto | exact Hpos'].
  - unfold Picture.MM_TO_INCHES. nra.
Qed.

Lemma closest_point_is_minimum_witness :
  exists (m : R) (row : list R),
    Picture.process Picture.Depth [[0; 1200]; [800; 0]]%R =
      [Picture.ClosestPoint (m * Picture.MM_TO_INCHES)] /\
    In row [[0; 1200]; [800; 0]]%R /\ In m row /\ (0 < m)%R /\
    (forall row' d', In row' [[0; 1200]; [800; 0]]%R -> In d' row' ->
                     (0 < d')%R -> (m <= d')%R) /\
    (0 < m * Picture.MM_TO_INCHES)%R.
Proof.
  apply closest_point_is_minimum.
  exists [0; 1200]%R, 1200%R. simpl. repeat split; auto. lra.
Defined.

(** X21. [picture.py] prints nothing for a frame exactly when it is not
    a depth frame or none of its pixels is above zero; so a stream without
    any valid depth pixel leaves only the start line. *)
Theorem no_report_without_valid_depth :
  forall (ft : Picture.FrameType) (data : Picture.frame)
         (frames : list (Picture.FrameType * Picture.frame)),
    let invalid (f : Picture.FrameType * Picture.frame) :=
      fst f <> Picture.Depth \/
      forall row d, In row (snd f) -> In d row -> (d <= 0)%R in
    (Picture.process ft data = [] <-> invalid (ft, data)) /\
    ((forall f, In f frames -> invalid f) ->
     Picture.main true frames = [Picture.Initialized]).
Proof.
  intros ft data frames invalid.
  assert (Hone : forall ft' data',
             Picture.process ft' data' = [] <-> invalid (ft', data')).
  { intros ft' data'. unfold invalid. simpl. split.
    - intro H. destruct ft'; try (left; discriminate).
      right. intros row d Hrow Hd.
      destruct (Rle_dec d 0) as [Hle | Hgt]; [exact Hle | exfalso].
      assert (Hin : In d (Picture.non_zero_depths data'))
        by (apply non_zero_depths_spec; split; [exists row; auto | lra]).
      unfold Picture.process in H.
      destruct (Picture.non_zero_depths data'); [contradiction | discriminate].
    - intros [Hne | Hall]; destruct ft'; try reflexivity;
        try (exfalso; apply Hne; reflexivity).
      unfold Picture.process.
      destruct (Picture.non_zero_depths data') as [| d rest] eqn:Hnz;
        [reflexivity | exfalso].
      assert (Hin : In d (Picture.non_zero_depths data'))
        by (rewrite Hnz; left; reflexivity).
      apply non_zero_depths_spec in Hin.
      destruct Hin as [(row & Hrow & Hd) Hpos].
      specialize (Hall row d Hrow Hd). lra. }
  split; [apply Hone |].
  intro Hall. unfold Picture.main. f_equal.
  induction frames as [| [ft' data'] frames IH]; [reflexivity |].
  simpl. rewrite (proj2 (Hone ft' data')) by (apply Hall; left; reflexivity).
  apply IH. intros f Hf. apply Hall. right. exact Hf.
Qed.

Lemma no_report_without_valid_depth_witness :
  Picture.main true
    [(Picture.Color, [[5; 7]]%R); (Picture.Depth, [[0; 0]; [0; 0]]%R)]
  = [Picture.Initialized].
Proof.
  apply (no_report_without_valid_depth Picture.Color []
           [(Picture.Color, [[5; 7]]%R);
            (Picture.Depth, [[0; 0]; [0; 0]]%R)]).
  intros f [<- | [<- | []]].
  - left. discriminate.
  - right. intros row d Hrow Hd. simpl in Hrow.
    destruct Hrow as [<- | [<- | []]]; simpl in Hd;
      destruct Hd as [<- | [<- | []]]; lra.
Defined.

(** ** [pcl.py]: the point nearest to the origin *)

Section PclFacts.

Import Pcl.

Local Open Scope R_scope.

Lemma finite_rows_In (points : list point) (x y z : R) :
  In (x, y, z) (finite_rows points) <->
  In (Finite x, Finite y, Finite z) points.
Proof.
  induction points as [| [[cx cy] cz] points IH]; [simpl; tauto |].
  destruct cx as [x' |], cy as [y' |], cz as [z' |]; simpl;
    rewrite IH; split; intro H; try tauto;
    destruct H as [H | H]; try discriminate; auto;
    left; congruence.
Qed.

(** [argmin_from] continues a scan: [best] is the least value among the
    entries before [index], first reached at [best_index]. *)
Lemma argmin_from_spec (rest : list R) :
  forall (pre : list R) (best_index : nat) (best : R),
    (best_index < length pre)%nat ->
    nth best_index pre 0 = best ->
    (forall k, (k < length pre)%nat -> best <= nth k pre 0) ->
    (forall k, (k < best_index)%nat -> best < nth k pre 0) ->
    let l := pre ++ rest in
    let j := argmin_from best_index best (length pre) rest in
    (j < length l)%nat /\
    (forall k, (k < length l)%nat -> nth j l 0 <= nth k l 0) /\
    (forall k, (k < j)%nat -> nth j l 0 < nth k l 0).
Proof.
  induction rest as [| d rest IH];
    intros pre best_index best Hlt Hnth Hle Hfirst; simpl.
  - rewrite app_nil_r. rewrite Hnth. repeat split; assumption.
  - replace (pre ++ d :: rest) with ((pre ++ [d]) ++ rest)
      by (rewrite <- app_assoc; reflexivity).
    replace (S (length pre)) with (length (pre ++ [d]))
      by (rewrite length_app; simpl; lia).
    assert (Hlast : nth (length pre) (pre ++ [d]) 0 = d)
      by (rewrite app_nth2, Nat.sub_diag by lia; reflexivity).
    assert (Hold : forall k, (k < length pre)%nat ->
                             nth k (pre ++ [d]) 0 = nth k pre 0)
      by (intros k Hk; apply app_nth1, Hk).
    destruct (Rlt_dec d best) as [Hnew | Hkeep].
    + replace (length pre) with (length (pre ++ [d]) - 1)%nat at 1
        by (rewrite length_app; simpl; lia).
      replace (length (pre ++ [d]) - 1)%nat with (length pre)
        by (rewrite length_app; simpl; lia).
      apply IH.
      * rewrite length_app. simpl. lia.
      * exact Hlast.
      * intros k Hk. rewrite length_app in Hk. simpl in Hk.
        destruct (Nat.eq_dec k (length pre)) as [-> | Hne].
        -- rewrite Hlast. lra.
        -- rewrite Hold by lia. specialize (Hle k ltac:(lia)). lra.
      * intros k Hk. rewrite Hold by lia.
        specialize (Hle k Hk). lra.
    + apply IH.
      * rewrite length_app. simpl. lia.
      * rewrite Hold by exact Hlt. exact Hnth.
      * intros k Hk. rewrite length_app in Hk. simpl in Hk.
        destruct (Nat.eq_dec k (length pre)) as [-> | Hne].
        -- rewrite Hlast. lra.
        -- rewrite Hold by lia. apply Hle. lia.
      * intros k Hk. rewrite Hold by lia. apply Hfirst, Hk.
Qed.

(** [argmin] gives the first position of the least element. *)
Lemma argmin_spec (l : list R) :
  l <> [] ->
  (argmin l < length l)%nat /\
  (forall k, (k < length l)%nat -> nth (argmin l) l 0 <= nth k l 0) /\
  (forall k, (k < argmin l)%nat -> nth (argmin l) l 0 < nth k l 0).
Proof.
  destruct l as [| d rest]; [congruence | intros _].
  apply (argmin_from_spec rest [d] O d).
  - simpl. lia.
  - reflexivity.
  - intros k Hk. simpl in Hk. destruct k; [simpl; lra | lia].
  - intros k Hk. lia.
Qed.

Lemma norm_nonneg (p : R * R * R) : 0 <= norm p.
Proof. destruct p as [[x y] z]. apply sqrt_pos. Qed.

(** The output of [main] on a cloud with a finite point. *)
Lemma main_closest (all_points : list point) :
  finite_rows all_points <> [] ->
  let points := finite_rows all_points in
  let j := argmin (map norm points) in
  exists x y z,
    nth_error points j = Some (x, y, z) /\
    main (Cloud all_points) =
      [Loaded (length all_points); Processing (length points);
       Separator; Closest x y z; Distance (norm (x, y, z))].
Proof.
  intros Hne points j.
  assert (Hmap : map norm points <> [])
    by (intro H; apply map_eq_nil in H; contradiction).
  destruct (argmin_spec (map norm points) Hmap) as (Hj & _ & _).
  fold j in Hj. rewrite length_map in Hj.
  destruct (nth_error points j) as [[[x y] z] |] eqn:Hnth;
    [| apply nth_error_None in Hnth; lia].
  exists x, y, z. split; [reflexivity |].
  assert (Hp : nth j points (0, 0, 0) = (x, y, z))
    by (apply nth_error_nth, Hnth).
  assert (Hd : nth j (map norm points) 0 = norm (x, y, z)).
  { rewrite (nth_indep _ 0 (norm (0, 0, 0))) by (rewrite length_map; exact Hj).
    rewrite map_nth, Hp. reflexivity. }
  unfold main. fold points.
  destruct all_points as [| p0 all_rest]; [contradiction |].
  destruct points as [| q0 qs] eqn:Hpoints; [contradiction |].
  fold j. rewrite Hp, Hd. reflexivity.
Qed.

(** The output of [main_by] on a cloud with a finite point, for any way
    of computing the distances. *)
Lemma main_by_closest (distance : R * R * R -> R) (all_points : list point) :
  finite_rows all_points <> [] ->
  let points := finite_rows all_points in
  let j := argmin (map distance points) in
  exists x y z,
    nth_error points j = Some (x, y, z) /\
    main_by distance (Cloud all_points) =
      [Loaded (length all_points); Processing (length points);
       Separator; Closest x y z; Distance (distance (x, y, z))].
Proof.
  intros Hne points j.
  assert (Hmap : map distance points <> [])
    by (intro H; apply map_eq_nil in H; contradiction).
  destruct (argmin_spec (map distance points) Hmap) as (Hj & _ & _).
  fold j in Hj. rewrite length_map in Hj.
  destruct (nth_error points j) as [[[x y] z] |] eqn:Hnth;
    [| apply nth_error_None in Hnth; lia].
  exists x, y, z. split; [reflexivity |].
  assert (Hp : nth j points (0, 0, 0) = (x, y, z))
    by (apply nth_error_nth, Hnth).
  assert (Hd : nth j (map distance points) 0 = distance (x, y, z)).
  { rewrite (nth_indep _ 0 (distance (0, 0, 0)))
      by (rewrite length_map; exact Hj).
    rewrite map_nth, Hp. reflexivity. }
  unfold main_by, closest_by. fold points.
  destruct all_points as [| p0 all_rest]; [contradiction |].
  destruct points as [| q0 qs] eqn:Hpoints; [contradiction |].
  fold j. rewrite Hp, Hd. reflexivity.
Qed.

(** With the exact norm as distance, [main_by] is [main]. *)
Lemma main_by_norm (read : read_result) : main_by norm read = main read.
Proof.
  destruct read as [all_points | |]; reflexivity.
Qed.

End PclFacts.

(** X22. When the cloud has a point all of whose coordinates are finite,
    [pcl.py] reports a point of the cloud with finite coordinates and the
    distance computed for it; in terms of the distances as computed,
    whatever way [distance] the norm is computed and rounded: no finite
    point of the cloud has a smaller computed distance, and the finite
    points before the reported one in the file have a strictly larger
    computed distance ([argmin] takes the first minimum).  Points with a
    non-finite coordinate are never reported.  With the exact norm as
    [distance] this is [main]. *)
Theorem closest_point_is_nearest :
  forall (distance : R * R * R -> R) (all_points : list Pcl.point),
    Pcl.finite_rows all_points <> [] ->
    (exists (x y z : R) (j : nat),
        Pcl.main_by distance (Pcl.Cloud all_points) =
          [Pcl.Loaded (length all_points);
           Pcl.Processing (length (Pcl.finite_rows all_points));
           Pcl.Separator; Pcl.Closest x y z;
           Pcl.Distance (distance (x, y, z))] /\
        In (Pcl.Finite x, Pcl.Finite y, Pcl.Finite z) all_points /\
        nth_error (Pcl.finite_rows all_points) j = Some (x, y, z) /\
        (forall x' y' z',
            In (Pcl.Finite x', Pcl.Finite y', Pcl.Finite z') all_points ->
            (distance (x, y, z) <= distance (x', y', z'))%R) /\
        (forall k q, (k < j)%nat ->
                     nth_error (Pcl.finite_rows all_points) k = Some q ->
                     (distance (x, y, z) < distance q)%R)) /\
    Pcl.main_by Pcl.norm (Pcl.Cloud all_points) =
      Pcl.main (Pcl.Cloud all_points).
Proof.
  intros distance all_points Hne.
  split; [| apply main_by_norm].
  destruct (main_by_closest distance all_points Hne)
    as (x & y & z & Hnth & Hmain).
  set (points := Pcl.finite_rows all_points) in *.
  set (j := Pcl.argmin (map distance points)) in *.
  assert (Hmap : map distance points <> [])
    by (intro H; apply map_eq_nil in H; contradiction).
  destruct (argmin_spec (map distance points) Hmap) as (Hj & Hmin & Hfirst).
  fold j in Hj, Hmin, Hfirst. rewrite length_map in Hj, Hmin.
  assert (Hat : forall k q, nth_error points k = Some q ->
                            nth k (map distance points) 0%R = distance q).
  { intros k q Hk.
    assert (Hlt : (k < length points)%nat)
      by (apply nth_error_Some; congruence).
    rewrite (nth_indep _ 0%R (distance (0, 0, 0)%R))
      by (rewrite length_map; exact Hlt).
    rewrite map_nth. f_equal. apply nth_error_nth, Hk. }
  exists x, y, z, j. split; [exact Hmain |].
  split; [apply finite_rows_In; apply (nth_error_In _ _ Hnth) |].
  split; [exact Hnth |].
  split.
  - intros x' y' z' Hin. apply finite_rows_In in Hin. fold points in Hin.
    destruct (In_nth_error _ _ Hin) as [k Hk].
    rewrite <- (Hat j _ Hnth), <- (Hat k _ Hk).
    apply Hmin. apply nth_error_Some. congruence.
  - intros k q Hk Hq.
    rewrite <- (Hat j _ Hnth), <- (Hat k _ Hq). apply Hfirst, Hk.
Qed.

Lemma closest_point_is_nearest_witness :
  exists (x y z : R) (j : nat),
    Pcl.main_by (fun p => fst (fst p))
      (Pcl.Cloud [(Pcl.Finite 2, Pcl.Finite 0, Pcl.Finite 0);
                  (Pcl.NonFinite, Pcl.Finite 0, Pcl.Finite 0);
                  (Pcl.Finite 1, Pcl.Finite 5, Pcl.Finite 0);
                  (Pcl.Finite 1, Pcl.Finite 0, Pcl.Finite 0)]) =
      [Pcl.Loaded 4; Pcl.Processing 3; Pcl.Separator; Pcl.Closest x y z;
       Pcl.Distance x] /\
    j = 1%nat /\ (x, y, z) = (1, 5, 0)%R.
Proof.
  destruct (closest_point_is_nearest (fun p => fst (fst p))
              [(Pcl.Finite 2, Pcl.Finite 0, Pcl.Finite 0);
               (Pcl.NonFinite, Pcl.Finite 0, Pcl.Finite 0);
               (Pcl.Finite 1, Pcl.Finite 5, Pcl.Finite 0);
               (Pcl.Finite 1, Pcl.Finite 0, Pcl.Finite 0)]%R)
    as ((x & y & z & j & Hmain & _ & Hnth & Hmin & Hfirst) & _).
  - simpl. discriminate.
  - exists x, y, z, j. split; [exact Hmain |].
    simpl in Hnth, Hmin, Hfirst.
    assert (H1 : (x <= 1)%R)
      by (apply (Hmin 1 5 0)%R; right; right; left; reflexivity).
    destruct j as [| [| [| j]]]; simpl in Hnth; try discriminate.
    + injection Hnth as <- <- <-. lra.
    + split; [reflexivity | congruence].
    + injection Hnth as <- <- <-.
      specialize (Hfirst 1%nat (1, 5, 0)%R ltac:(lia) eq_refl).
      simpl in Hfirst. lra.
    + destruct j; discriminate.
Defined.

(** X23. [pcl.py] reports a closest point exactly when the file was read
    and holds a point all of whose coordinates are finite; an empty cloud,
    a cloud of non-finite points only and a failed read each end in their
    own error line, without a result. *)
Theorem closest_reported_iff_finite_point :
  forall (read : Pcl.read_result),
    ((exists x y z, In (Pcl.Closest x y z) (Pcl.main read)) <->
     (exists points x y z,
         read = Pcl.Cloud points /\
         In (Pcl.Finite x, Pcl.Finite y, Pcl.Finite z) points)) /\
    (forall points,
        points <> [] ->
        Pcl.finite_rows points = [] ->
        Pcl.main (Pcl.Cloud points) =
          [Pcl.Loaded (length points); Pcl.ErrorNoFinite]) /\
    Pcl.main (Pcl.Cloud []) = [Pcl.ErrorEmpty].
Proof.
  intro read. split; [| split].
  - split.
    + intros (x & y & z & Hin).
      destruct read as [points | |];
        try (simpl in Hin; destruct Hin as [H | []]; discriminate).
      destruct (Pcl.finite_rows points) as [| [[x0 y0] z0] rest] eqn:Hf.
      * exfalso. destruct points as [| p0 ps];
          [simpl in Hin; destruct Hin as [H | []]; discriminate |].
        unfold Pcl.main in Hin. rewrite Hf in Hin. simpl in Hin.
        destruct Hin as [H | [H | []]]; discriminate.
      * exists points, x0, y0, z0. split; [reflexivity |].
        apply finite_rows_In. rewrite Hf. left. reflexivity.
    + intros (points & x & y & z & -> & Hin).
      assert (Hne : Pcl.finite_rows points <> []).
      { apply finite_rows_In in Hin. intro H. rewrite H in Hin.
        contradiction. }
      destruct (main_closest points Hne) as (x0 & y0 & z0 & _ & ->).
      exists x0, y0, z0. simpl. auto.
  - intros points Hne Hf.
    destruct points as [| p0 ps]; [contradiction |].
    unfold Pcl.main. rewrite Hf. reflexivity.
  - reflexivity.
Qed.

Lemma closest_reported_iff_finite_point_witness :
  Pcl.main (Pcl.Cloud [(Pcl.NonFinite, Pcl.Finite 1, Pcl.Finite 2)]%R) =
    [Pcl.Loaded 1; Pcl.ErrorNoFinite].
Proof.
  destruct (closest_reported_iff_finite_point Pcl.RaiseOther)
    as (_ & Hnone & _).
  apply (Hnone [(Pcl.NonFinite, Pcl.Finite 1, Pcl.Finite 2)]%R).
  - discriminate.
  - reflexivity.
Defined.

(** ** [bluetooth.py]: the interactive loop *)

Section BluetoothFacts.

Import String Ascii Bluetooth.

(** What is sent for a list of messages, up to the line or the Ctrl-C
    that ends the loop. *)
Lemma send_loop_until (msgs : list string) (stop : user) (rest : list user) :
  (forall m, In m msgs -> lower m <> "quit"%string) ->
  send_loop (map Line msgs ++ stop :: rest) =
    (match stop with
     | CtrlC => Cancelled
     | Line q => if String.eqb (lower q) "quit" then Quit
                 else fst (send_loop (stop :: rest))
     end,
     flat_map (fun m => [WriteGattChar CHAR_RX_UUID m; PrintSent m]) msgs
     ++ snd (send_loop (stop :: rest))).
Proof.
  intros Hmsgs. induction msgs as [| m msgs IH].
  - simpl. destruct stop as [q |]; [| reflexivity].
    destruct (String.eqb (lower q) "quit"); [reflexivity |].
    destruct (send_loop rest); reflexivity.
  - assert (Hm : String.eqb (lower m) "quit" = false)
      by (apply String.eqb_neq, Hmsgs; left; reflexivity).
    cbn [map app send_loop]. rewrite Hm.
    rewrite IH by (intros m' Hm'; apply Hmsgs; right; exact Hm').
    reflexivity.
Qed.

(** The loop does nothing on the link but write the lines that are not
    [quit], in the order they were entered. *)
Lemma send_loop_gatt (inputs : list user) :
  exists msgs,
    filter is_gatt (snd (send_loop inputs)) =
      map (WriteGattChar CHAR_RX_UUID) msgs /\
    (forall m, In m msgs -> lower m <> "quit"%string /\ In (Line m) inputs).
Proof.
  induction inputs as [| [msg |] inputs IH]; simpl.
  - exists []. split; [reflexivity | intros m []].
  - destruct (String.eqb (lower msg) "quit") eqn:Hq.
    + exists []. split; [reflexivity | intros m []].
    + destruct IH as (msgs & Hf & Hall).
      destruct (send_loop inputs) as [ending log]. simpl in *.
      exists (msg :: msgs). split; [rewrite Hf; reflexivity |].
      intros m [<- | Hm].
      * split; [apply String.eqb_neq, Hq | left; reflexivity].
      * destruct (Hall m Hm) as [H1 H2]. split; [exact H1 | right; exact H2].
  - exists []. split; [reflexivity | intros m []].
Qed.

Lemma lower_q (c : ascii) :
  lower_ascii c = "q"%char <-> c = "q"%char \/ c = "Q"%char.
Proof.
  split.
  - destruct c as [[] [] [] [] [] [] [] []]; vm_compute; intro H;
      try discriminate; auto.
  - intros [-> | ->]; reflexivity.
Qed.

Lemma lower_u (c : ascii) :
  lower_ascii c = "u"%char <-> c = "u"%char \/ c = "U"%char.
Proof.
  split.
  - destruct c as [[] [] [] [] [] [] [] []]; vm_compute; intro H;
      try discriminate; auto.
  - intros [-> | ->]; reflexivity.
Qed.

Lemma lower_i (c : ascii) :
  lower_ascii c = "i"%char <-> c = "i"%char \/ c = "I"%char.
Proof.
  split.
  - destruct c as [[] [] [] [] [] [] [] []]; vm_compute; intro H;
      try discriminate; auto.
  - intros [-> | ->]; reflexivity.
Qed.

Lemma lower_t (c : ascii) :
  lower_ascii c = "t"%char <-> c = "t"%char \/ c = "T"%char.
Proof.
  split.
  - destruct c as [[] [] [] [] [] [] [] []]; vm_compute; intro H;
      try discriminate; auto.
  - intros [-> | ->]; reflexivity.
Qed.


(** The strings [str.lower] sends to [quit]. *)
Lemma lower_quit_iff :
  forall (msg : String.string),
    Bluetooth.lower msg = "quit"%string <->
    exists c1 c2 c3 c4 : Ascii.ascii,
      msg = String.String c1 (String.String c2 (String.String c3
              (String.String c4 String.EmptyString))) /\
      (c1 = "q"%char \/ c1 = "Q"%char) /\
      (c2 = "u"%char \/ c2 = "U"%char) /\
      (c3 = "i"%char \/ c3 = "I"%char) /\
      (c4 = "t"%char \/ c4 = "T"%char).
Proof.
  intro msg. split.
  - intro H.
    destruct msg as [| c1 [| c2 [| c3 [| c4 [| c5 tail]]]]];
      simpl in H; try discriminate.
    injection H as H1 H2 H3 H4.
    exists c1, c2, c3, c4. split; [reflexivity |].
    repeat split;
      [apply lower_q | apply lower_u | apply lower_i | apply lower_t];
      assumption.
  - intros (c1 & c2 & c3 & c4 & -> & H1 & H2 & H3 & H4). simpl.
    rewrite (proj2 (lower_q c1) H1), (proj2 (lower_u c2) H2),
      (proj2 (lower_i c3) H3), (proj2 (lower_t c4) H4).
    reflexivity.
Qed.

(** X24. In [bluetooth.py], once the device is found and connected, the
    lines entered before the first [quit] (in any letter case) are each
    written to the receive characteristic and confirmed, in the order
    entered, and nothing entered afterwards is sent; after the [quit] line
    the notifications are unsubscribed, the link is closed and [main]
    returns.  When a Ctrl-C comes instead, the lines before it have been
    sent likewise, but [main] is cancelled: the link is closed without the
    unsubscription and [main] does not return. *)
Theorem messages_sent_until_quit :
  forall (msgs : list String.string) (q : String.string)
         (rest : list Bluetooth.user),
    (forall m, In m msgs -> Bluetooth.lower m <> "quit"%string) ->
    Bluetooth.lower q = "quit"%string ->
    let opening :=
      [Bluetooth.PrintScanning; Bluetooth.PrintFound; Bluetooth.Connect;
       Bluetooth.PrintConnected;
       Bluetooth.StartNotify Bluetooth.CHAR_TX_UUID;
       Bluetooth.PrintSubscribed] in
    let sent :=
      flat_map (fun m => [Bluetooth.WriteGattChar Bluetooth.CHAR_RX_UUID m;
                          Bluetooth.PrintSent m]) msgs in
    Bluetooth.main true true
      (map Bluetooth.Line msgs ++ Bluetooth.Line q :: rest) =
      (true,
       opening ++ sent ++
       [Bluetooth.StopNotify Bluetooth.CHAR_TX_UUID; Bluetooth.Disconnect])
    /\
    Bluetooth.main true true
      (map Bluetooth.Line msgs ++ Bluetooth.CtrlC :: rest) =
      (false, opening ++ sent ++ [Bluetooth.Disconnect]).
Proof.
  intros msgs q rest Hmsgs Hq opening sent.
  unfold Bluetooth.main. split.
  - rewrite (send_loop_until msgs (Bluetooth.Line q) rest Hmsgs).
    cbn [Bluetooth.send_loop snd fst]. rewrite Hq.
    cbn [String.eqb Ascii.eqb Bool.eqb snd]. rewrite app_nil_r.
    rewrite <- app_assoc. reflexivity.
  - rewrite (send_loop_until msgs Bluetooth.CtrlC rest Hmsgs).
    cbn [Bluetooth.send_loop snd]. rewrite app_nil_r.
    rewrite <- app_assoc. reflexivity.
Qed.

Lemma messages_sent_until_quit_witness :
  Bluetooth.main true true
    (map Bluetooth.Line ["go"; ""]%string ++
     Bluetooth.Line "QuIt" :: [Bluetooth.Line "late"]) =
    (true,
     [Bluetooth.PrintScanning; Bluetooth.PrintFound; Bluetooth.Connect;
      Bluetooth.PrintConnected;
      Bluetooth.StartNotify Bluetooth.CHAR_TX_UUID;
      Bluetooth.PrintSubscribed] ++
     flat_map (fun m => [Bluetooth.WriteGattChar Bluetooth.CHAR_RX_UUID m;
                         Bluetooth.PrintSent m]) ["go"; ""]%string ++
     [Bluetooth.StopNotify Bluetooth.CHAR_TX_UUID; Bluetooth.Disconnect]).
Proof.
  apply (messages_sent_until_quit ["go"; ""]%string "QuIt"%string
           [Bluetooth.Line "late"]).
  - intros m [<- | [<- | []]]; discriminate.
  - reflexivity.
Defined.

(** X25. On the link of [bluetooth.py] the notifications bracket the
    writes: when the device is found and connected, the operations on the
    link are one subscription to the transmit characteristic, then only
    writes to the receive characteristic, of lines that were entered and
    are not [quit], then one unsubscription exactly when [main] has
    returned; when the device is not found or not connected there is no
    operation on the link, and [main] has returned. *)
Theorem notifications_bracket_writes :
  forall (found connected : bool) (inputs : list Bluetooth.user),
    let returned := fst (Bluetooth.main found connected inputs) in
    let log := snd (Bluetooth.main found connected inputs) in
    (found = true -> connected = true ->
     exists msgs,
       filter Bluetooth.is_gatt log =
         [Bluetooth.StartNotify Bluetooth.CHAR_TX_UUID] ++
         map (Bluetooth.WriteGattChar Bluetooth.CHAR_RX_UUID) msgs ++
         (if returned then [Bluetooth.StopNotify Bluetooth.CHAR_TX_UUID]
          else []) /\
       forall m, In m msgs ->
                 Bluetooth.lower m <> "quit"%string /\
                 In (Bluetooth.Line m) inputs) /\
    (found = false \/ connected = false ->
     filter Bluetooth.is_gatt log = [] /\ returned = true).
Proof.
  intros found connected inputs returned log. split.
  - intros -> ->. unfold returned, log, Bluetooth.main.
    destruct (send_loop_gatt inputs) as (msgs & Hf & Hall).
    destruct (Bluetooth.send_loop inputs) as [left l]. simpl in Hf.
    exists msgs. split; [| exact Hall].
    destruct left; simpl; rewrite ?filter_app, Hf; simpl;
      rewrite ?app_nil_r; reflexivity.
  - intros [-> | ->]; unfold returned, log, Bluetooth.main;
      [| destruct found]; split; reflexivity.
Qed.

Lemma notifications_bracket_writes_witness :
  filter Bluetooth.is_gatt
    (snd (Bluetooth.main true false [Bluetooth.Line "hello"])) = [].
Proof.
  apply (notifications_bracket_writes true false [Bluetooth.Line "hello"]).
  right. reflexivity.
Defined.

(** X26. The lines that end the session of [bluetooth.py] are exactly
    the four letters q, u, i, t in this order, each in either case: on
    such a first line [main] writes nothing, unsubscribes, closes the link
    and returns, and on no other first line does it; any other line, such
    as the empty one or one with a space around the word, is written to
    the receive characteristic and confirmed. *)
Theorem quit_in_any_case :
  forall (msg : String.string) (rest : list Bluetooth.user),
    let variant :=
      exists c1 c2 c3 c4 : Ascii.ascii,
        msg = String.String c1 (String.String c2 (String.String c3
                (String.String c4 String.EmptyString))) /\
        (c1 = "q"%char \/ c1 = "Q"%char) /\
        (c2 = "u"%char \/ c2 = "U"%char) /\
        (c3 = "i"%char \/ c3 = "I"%char) /\
        (c4 = "t"%char \/ c4 = "T"%char) in
    let opening :=
      [Bluetooth.PrintScanning; Bluetooth.PrintFound; Bluetooth.Connect;
       Bluetooth.PrintConnected;
       Bluetooth.StartNotify Bluetooth.CHAR_TX_UUID;
       Bluetooth.PrintSubscribed] in
    (variant <->
     Bluetooth.main true true (Bluetooth.Line msg :: rest) =
       (true,
        opening ++
        [Bluetooth.StopNotify Bluetooth.CHAR_TX_UUID; Bluetooth.Disconnect]))
    /\
    (~ variant ->
     exists tail,
       snd (Bluetooth.main true true (Bluetooth.Line msg :: rest)) =
         opening ++
         Bluetooth.WriteGattChar Bluetooth.CHAR_RX_UUID msg ::
         Bluetooth.PrintSent msg :: tail).
Proof.
  intros msg rest variant opening.
  assert (Hv : variant <-> Bluetooth.lower msg = "quit"%string)
    by (symmetry; apply lower_quit_iff).
  unfold Bluetooth.main. cbn [Bluetooth.send_loop].
  destruct (String.eqb (Bluetooth.lower msg) "quit") eqn:Hq.
  - apply String.eqb_eq in Hq. split.
    + split; [intros _; reflexivity | intros _; apply Hv, Hq].
    + intro Hn. exfalso. apply Hn, Hv, Hq.
  - apply String.eqb_neq in Hq.
    destruct (Bluetooth.send_loop rest) as [ending log]. split.
    + split; [intro H; exfalso; apply Hq, Hv, H |].
      intro H. exfalso. destruct ending; discriminate.
    + intros _. destruct ending; cbn [snd].
      * exists log. reflexivity.
      * exists (log ++ [Bluetooth.StopNotify Bluetooth.CHAR_TX_UUID;
                        Bluetooth.Disconnect]).
        reflexivity.
      * exists (log ++ [Bluetooth.Disconnect]). reflexivity.
Qed.

Lemma quit_in_any_case_witness :
  exists tail,
    snd (Bluetooth.main true true [Bluetooth.Line "quit "]) =
      [Bluetooth.PrintScanning; Bluetooth.PrintFound; Bluetooth.Connect;
       Bluetooth.PrintConnected;
       Bluetooth.StartNotify Bluetooth.CHAR_TX_UUID;
       Bluetooth.PrintSubscribed] ++
      Bluetooth.WriteGattChar Bluetooth.CHAR_RX_UUID "quit " ::
      Bluetooth.PrintSent "quit " :: tail.
Proof.
  apply (quit_in_any_case "quit "%string []).
  intros (c1 & c2 & c3 & c4 & H & _). discriminate.
Defined.

End BluetoothFacts.
